(** * py65.utils.console: character-at-a-time console input

    A shallow embedding of [src/py65/utils/console.py] and the
    properties of its terminal-mode controller ([save_mode],
    [noncanonical_mode], [restore_mode], [getch], [getch_noblock]) and
    of its line editor ([line_input]).

    The module has two variants, chosen when it is loaded by
    [sys.platform[:3] == "win"]: one on top of [msvcrt] (the Windows
    console) and one on top of [termios].  Both are embedded, each in a
    module of its own, and the functions at the end of the definitions
    dispatch on the variant.

    Python code runs in a state-and-exception monad over a [world]: the
    module global [oldattr], the Python heap holding the attribute lists
    that [termios.tcgetattr] builds, the terminal settings the kernel
    keeps per file descriptor, the file objects handed in as [stdin] and
    [stdout], and the Windows console. *)

From Stdlib Require Import ZArith Ascii String Lia.
From Stdlib.Strings Require Import Byte.
From stdpp Require Import base option list gmap strings.

Local Open Scope Z_scope.

(** ** Python values and exceptions *)

(** The exceptions that reach this module. [KeyboardInterrupt] is the
    only one the code tells apart from the others. *)
Inductive exn :=
| KeyboardInterrupt
| TermiosError
| UnsupportedOperation
| AttributeError
| IndexError
| TypeError
| OSError.

Global Instance exn_eq_dec : EqDecision exn.
Proof. solve_decision. Defined.

(** What running a piece of Python code gives: a value, or an exception
    in flight. *)
Inductive outcome (A : Type) :=
| Ret (a : A)
| Raise (e : exn).
Arguments Ret {A} a.
Arguments Raise {A} e.

(** Characters with a meaning for the module. *)
Definition LF : ascii := "010"%char.
Definition CR : ascii := "013"%char.
Definition BS : ascii := "008"%char.
Definition DEL : ascii := "127"%char.
Definition ESC : ascii := "027"%char.
Definition SPACE : ascii := "032"%char.

(** A Python [str] holding one character. *)
Definition str1 (c : ascii) : string := String c EmptyString.

(** The result of [msvcrt.getch()]: [bytes] on Python 3, [str] on
    Python 2. *)
Inductive keyval :=
| PyBytes (b : list byte)
| PyStr (s : string).

(** [bytes.decode('latin-1')]: byte [n] is the character with code
    point [n]. *)
Definition decode_latin1 (b : list byte) : string :=
  String.string_of_list_byte b.

(** ** The environment *)

Abbreviation fd := Z (only parsing).
Abbreviation handle := nat (only parsing).
Abbreviation loc := positive (only parsing).

(** One thing the input side can do when asked for a character. *)
Inductive input_event :=
| Key (c : ascii)      (* a character is delivered *)
| Nothing              (* no character now: a timeout, or the console is idle *)
| Raises (e : exn).    (* the call raises *)

Global Instance input_event_eq_dec : EqDecision input_event.
Proof. solve_decision. Defined.

(** One thing done to an output file object. *)
Inductive output_event :=
| Write (s : string)
| Flush.

(** A Python file object: what [fileno()] does, what the coming calls
    of [read(1)] give (after the last one, [read(1)] gives [''] for
    ever, as at the end of a file), and what was written to it. *)
Record file_obj := {
  f_fileno : outcome fd;
  f_input : list input_event;
  f_output : list output_event
}.

(** The terminal settings the kernel keeps ([struct termios]). *)
Record termios := {
  c_iflag : Z;
  c_oflag : Z;
  c_cflag : Z;
  c_lflag : Z;
  c_ispeed : Z;
  c_ospeed : Z;
  c_cc : list ascii
}.

(** An item of the [cc] list of [termios.tcgetattr]: a [bytes] of
    length one, or an integer. *)
Inductive cc_item :=
| CcBytes (b : ascii)
| CcInt (n : Z).

(** The seven-item list of [termios.tcgetattr]; item 6 refers to the
    [cc] list, a heap object of its own. *)
Record attr_list := {
  a_iflag : Z;
  a_oflag : Z;
  a_cflag : Z;
  a_lflag : Z;
  a_ispeed : Z;
  a_ospeed : Z;
  a_cc : loc
}.

Inductive pyobj :=
| AttrList (a : attr_list)
| CcList (items : list cc_item).

Record world := {
  oldattr : option loc;          (* the module global; [None] is Python's [None] *)
  heap : gmap loc pyobj;         (* Python list objects *)
  kernel : gmap fd termios;      (* the descriptors that are terminals *)
  files : gmap handle file_obj;  (* Python file objects *)
  console : list input_event     (* the Windows console *)
}.

Definition set_oldattr (o : option loc) (w : world) : world :=
  {| oldattr := o; heap := heap w; kernel := kernel w;
     files := files w; console := console w |}.
Definition set_heap (h : gmap loc pyobj) (w : world) : world :=
  {| oldattr := oldattr w; heap := h; kernel := kernel w;
     files := files w; console := console w |}.
Definition set_kernel (k : gmap fd termios) (w : world) : world :=
  {| oldattr := oldattr w; heap := heap w; kernel := k;
     files := files w; console := console w |}.
Definition set_files (f : gmap handle file_obj) (w : world) : world :=
  {| oldattr := oldattr w; heap := heap w; kernel := kernel w;
     files := f; console := console w |}.
Definition set_console (c : list input_event) (w : world) : world :=
  {| oldattr := oldattr w; heap := heap w; kernel := kernel w;
     files := files w; console := c |}.

(** ** The monads *)

(** Code without loops: a state-and-exception monad over the world. *)
Definition M (A : Type) : Type := world -> outcome A * world.

Definition ret {A} (a : A) : M A := fun w => (Ret a, w).
Definition raise {A} (e : exn) : M A := fun w => (Raise e, w).
Definition bind {A B} (m : M A) (k : A -> M B) : M B :=
  fun w => match m w with
           | (Ret a, w') => k a w'
           | (Raise e, w') => (Raise e, w')
           end.

(** [try: body / except <e>: handler e]. What the body did to the world
    before it raised stays done. *)
Definition try_except {A} (body : M A) (handler : exn -> M A) : M A :=
  fun w => match body w with
           | (Ret a, w') => (Ret a, w')
           | (Raise e, w') => handler e w'
           end.

(** Code that may wait for ever: [None] is a run that does not end
    (with the fuel given). *)
Definition D (A : Type) : Type := world -> option (outcome A * world).

Definition dret {A} (a : A) : D A := fun w => Some (Ret a, w).
Definition dbind {A B} (m : D A) (k : A -> D B) : D B :=
  fun w => match m w with
           | Some (Ret a, w') => k a w'
           | Some (Raise e, w') => Some (Raise e, w')
           | None => None
           end.
Definition lift {A} (m : M A) : D A := fun w => Some (m w).
Definition diverge {A} : D A := fun _ => None.

Declare Scope py_scope.
Delimit Scope py_scope with py.
Notation "'let*' x ':=' m 'in' k" := (bind m (fun x => k))
  (at level 10, x name, m at level 100, k at level 200) : py_scope.
Notation "m '>>' k" := (bind m (fun _ => k))
  (at level 100, k at level 200, right associativity) : py_scope.
Notation "'wait*' x ':=' m 'in' k" := (dbind m (fun x => k))
  (at level 10, x name, m at level 100, k at level 200) : py_scope.
Local Open Scope py_scope.

(** ** File objects *)

(** [stdin.fileno()]. An object that is not a file has no such method. *)
Definition fileno (h : handle) : M fd :=
  fun w => match files w !! h with
           | Some f => (f_fileno f, w)
           | None => (Raise AttributeError, w)
           end.

(** [stdin.read(1)]: the next event of the file, consumed. *)
Definition read1 (h : handle) : M string :=
  fun w => match files w !! h with
           | None => (Raise AttributeError, w)
           | Some f =>
               match f_input f with
               | [] => (Ret EmptyString, w)
               | ev :: evs =>
                   let w' := set_files
                     (<[h := {| f_fileno := f_fileno f; f_input := evs;
                                f_output := f_output f |}]> (files w)) w in
                   match ev with
                   | Key c => (Ret (str1 c), w')
                   | Nothing => (Ret EmptyString, w')
                   | Raises e => (Raise e, w')
                   end
               end
           end.

Definition emit (h : handle) (ev : output_event) : M unit :=
  fun w => match files w !! h with
           | None => (Raise AttributeError, w)
           | Some f =>
               (Ret tt,
                set_files
                  (<[h := {| f_fileno := f_fileno f; f_input := f_input f;
                             f_output := f_output f ++ [ev] |}]> (files w)) w)
           end.

(** [stdout.write(s)] and [stdout.flush()]. *)
Definition write (h : handle) (s : string) : M unit := emit h (Write s).
Definition flush (h : handle) : M unit := emit h Flush.

(** ** The Python heap *)

(** A new list object. *)
Definition alloc (o : pyobj) : M loc :=
  fun w => let l := fresh (dom (heap w)) in
           (Ret l, set_heap (<[l := o]> (heap w)) w).

Definition load_attr (l : loc) : M attr_list :=
  fun w => match heap w !! l with
           | Some (AttrList a) => (Ret a, w)
           | _ => (Raise TypeError, w)
           end.

Definition load_cc (l : loc) : M (list cc_item) :=
  fun w => match heap w !! l with
           | Some (CcList items) => (Ret items, w)
           | _ => (Raise TypeError, w)
           end.

Definition store (l : loc) (o : pyobj) : M unit :=
  fun w => (Ret tt, set_heap (<[l := o]> (heap w)) w).

(** [a[:]] on an attribute list: a new list with the same items, so the
    [cc] list is shared between the copy and the original. *)
Definition list_copy (l : loc) : M loc :=
  let* a := load_attr l in alloc (AttrList a).

(** [a[3] = v]. *)
Definition set_lflag (l : loc) (v : Z) : M unit :=
  let* a := load_attr l in
  store l (AttrList {| a_iflag := a_iflag a; a_oflag := a_oflag a;
                       a_cflag := a_cflag a; a_lflag := v;
                       a_ispeed := a_ispeed a; a_ospeed := a_ospeed a;
                       a_cc := a_cc a |}).

(** [a[6][i] = v]: the [cc] list that [a] refers to is changed in
    place; Python raises [IndexError] out of range. *)
Definition set_cc (l : loc) (i : nat) (v : cc_item) : M unit :=
  let* a := load_attr l in
  let* items := load_cc (a_cc a) in
  if decide (i < length items)%nat
  then store (a_cc a) (CcList (<[i := v]> items))
  else raise IndexError.

(** ** The [termios] module *)

(** The constants of [termios] that the code names; their values are
    the platform's. *)
Class termios_consts := {
  ICANON : Z;
  ECHO : Z;
  VMIN : nat;
  VTIME : nat;
  TCSANOW : Z
}.

(** The values on Linux. *)
Definition linux_consts : termios_consts :=
  {| ICANON := 2; ECHO := 8; VMIN := 6; VTIME := 5; TCSANOW := 0 |}.

Definition cc_of_int (n : Z) : ascii := ascii_of_N (Z.to_N (n mod 256)).
Definition int_of_cc (b : ascii) : Z := Z.of_N (N_of_ascii b).

(** The byte the kernel gets for an item of a [cc] list. *)
Definition cc_byte (it : cc_item) : ascii :=
  match it with
  | CcBytes b => b
  | CcInt n => cc_of_int n
  end.

Section Termios.
Context {K : termios_consts}.

(** The [cc] list [tcgetattr] builds: every slot a [bytes] of length
    one, but for the MIN and TIME slots, which are integers when the
    terminal is not in canonical mode. *)
Definition cc_items (t : termios) : list cc_item :=
  let items := CcBytes <$> c_cc t in
  if decide (Z.land (c_lflag t) ICANON = 0)
  then <[VTIME := CcInt (int_of_cc (default "000"%char (c_cc t !! VTIME)))]>
         (<[VMIN := CcInt (int_of_cc (default "000"%char (c_cc t !! VMIN)))]>
            items)
  else items.

(** The seven items for the settings [t], with [cc] as the last. *)
Definition attr_of (t : termios) (cc : loc) : attr_list :=
  {| a_iflag := c_iflag t; a_oflag := c_oflag t; a_cflag := c_cflag t;
     a_lflag := c_lflag t; a_ispeed := c_ispeed t; a_ospeed := c_ospeed t;
     a_cc := cc |}.

(** [termios.tcgetattr(fd)]: fails when [fd] is not a terminal, and
    builds two new lists when it is. *)
Definition tcgetattr (d : fd) : M loc :=
  fun w => match kernel w !! d with
           | None => (Raise TermiosError, w)
           | Some t =>
               (let* cc := alloc (CcList (cc_items t)) in
                alloc (AttrList (attr_of t cc))) w
           end.

(** The settings an attribute list stands for. *)
Definition termios_of (a : attr_list) (items : list cc_item) : termios :=
  {| c_iflag := a_iflag a; c_oflag := a_oflag a; c_cflag := a_cflag a;
     c_lflag := a_lflag a; c_ispeed := a_ispeed a; c_ospeed := a_ospeed a;
     c_cc := cc_byte <$> items |}.

(** [termios.tcsetattr(fd, when, attributes)]: fails when [fd] is not
    a terminal; with [TCSANOW] the settings are those of the list from
    the moment the call returns. *)
Definition tcsetattr (d : fd) (when : Z) (l : loc) : M unit :=
  let* a := load_attr l in
  let* items := load_cc (a_cc a) in
  fun w => match kernel w !! d with
           | None => (Raise TermiosError, w)
           | Some _ =>
               (Ret tt, set_kernel (<[d := termios_of a items]> (kernel w)) w)
           end.
End Termios.

(** ** The [msvcrt] module *)

(** [msvcrt.kbhit()]: is a key waiting?  An idle moment of the console
    passes when the answer is no. *)
Definition kbhit : M bool :=
  fun w => match console w with
           | [] => (Ret false, w)
           | Key _ :: _ => (Ret true, w)
           | Nothing :: evs => (Ret false, set_console evs w)
           | Raises e :: evs => (Raise e, set_console evs w)
           end.

(** [msvcrt.getch()]: waits for a key and takes it from the console. A
    console that never gets a key keeps the call waiting for ever. *)
Fixpoint wait_key (evs : list input_event) : option (outcome ascii * list input_event) :=
  match evs with
  | [] => None
  | Key c :: evs' => Some (Ret c, evs')
  | Nothing :: evs' => wait_key evs'
  | Raises e :: evs' => Some (Raise e, evs')
  end.

Definition msvcrt_getch : D keyval :=
  fun w => match wait_key (console w) with
           | None => None
           | Some (Ret c, evs) =>
               Some (Ret (PyBytes [byte_of_ascii c]), set_console evs w)
           | Some (Raise e, evs) => Some (Raise e, set_console evs w)
           end.

(** ** The Windows variant *)

Module Win.

(** [save_mode], [noncanonical_mode] and [restore_mode] return at
    once. *)
Definition save_mode (stdin : handle) : M unit := ret tt.
Definition noncanonical_mode (stdin : handle) : M unit := ret tt.
Definition restore_mode (stdin : handle) : M unit := ret tt.

(** [getch]: one key of the console, decoded when it comes as
    [bytes]; [stdin] is not used. *)
Definition getch (stdin : handle) : D string :=
  wait* c := msvcrt_getch in
  match c with
  | PyBytes b => dret (decode_latin1 b)
  | PyStr s => dret s
  end.

(** [getch_noblock]: [getch] when a key is waiting, [''] when none
    is. *)
Definition getch_noblock (stdin : handle) : D string :=
  wait* hit := lift kbhit in
  if (hit : bool) then getch stdin else dret EmptyString.

End Win.

(** ** The POSIX variant *)

Module Posix.
Section WithTermios.
Context {K : termios_consts}.

(** [save_mode]: [oldattr] becomes the list [tcgetattr] gives; any
    exception on the way is dropped. *)
Definition save_mode (stdin : handle) : M unit :=
  try_except
    (let* d := fileno stdin in
     let* a := tcgetattr d in
     fun w => (Ret tt, set_oldattr (Some a) w))
    (fun _ => ret tt).

(** [noncanonical_mode]: the settings of the terminal as they are
    now, with ICANON and ECHO cleared, MIN set to 0 and TIME to 1, are
    set again; any exception on the way is dropped. *)
Definition noncanonical_mode (stdin : handle) : M unit :=
  try_except
    (let* d := fileno stdin in
     let* currentattr := tcgetattr d in
     let* newattr := list_copy currentattr in
     let* a := load_attr newattr in
     set_lflag newattr
       (Z.land (a_lflag a) (Z.land (Z.lnot ICANON) (Z.lnot ECHO))) >>
     set_cc newattr VMIN (CcInt 0) >>
     set_cc newattr VTIME (CcInt 1) >>
     tcsetattr d TCSANOW newattr)
    (fun _ => ret tt).

(** [restore_mode]: the list in [oldattr], when there is one, is set
    again; any exception on the way is dropped. *)
Definition restore_mode (stdin : handle) : M unit :=
  try_except
    (let* d := fileno stdin in
     fun w => match oldattr w with
              | Some a => tcsetattr d TCSANOW a w
              | None => (Ret tt, w)
              end)
    (fun _ => ret tt).

(** One [try] statement of the two readers: [char = stdin.read(1)];
    [KeyboardInterrupt] is raised again, any other exception leaves
    [char] as it was. *)
Definition try_read (stdin : handle) (char : string) : M string :=
  try_except
    (read1 stdin)
    (fun e => match e with
              | KeyboardInterrupt => raise KeyboardInterrupt
              | _ => ret char
              end).

(** The loop of [getch]: [while char == '']. *)
Fixpoint getch_loop (fuel : nat) (stdin : handle) (char : string) : D string :=
  if decide (char = EmptyString) then
    match fuel with
    | O => diverge
    | S fuel' =>
        wait* char' := lift (try_read stdin char) in
        getch_loop fuel' stdin char'
    end
  else dret char.

Definition getch (fuel : nat) (stdin : handle) : D string :=
  wait* _ := lift (noncanonical_mode stdin) in
  getch_loop fuel stdin EmptyString.

(** [getch_noblock]: one read, and a newline becomes a carriage
    return. *)
Definition getch_noblock (stdin : handle) : M string :=
  noncanonical_mode stdin >>
  let* char := try_read stdin EmptyString in
  if decide (char = str1 LF) then ret (str1 CR) else ret char.

End WithTermios.
End Posix.

(** ** The module as loaded *)

Inductive platform := Windows | PosixLike.

(** The test at the top of the module: [sys.platform[:3] == "win"]. *)
Definition platform_of (sys_platform : string) : platform :=
  if decide (String.substring 0 3 sys_platform = "win") then Windows else PosixLike.

Section Console.
Context {K : termios_consts}.

Definition save_mode (p : platform) (stdin : handle) : M unit :=
  match p with
  | Windows => Win.save_mode stdin
  | PosixLike => Posix.save_mode stdin
  end.

Definition noncanonical_mode (p : platform) (stdin : handle) : M unit :=
  match p with
  | Windows => Win.noncanonical_mode stdin
  | PosixLike => Posix.noncanonical_mode stdin
  end.

Definition restore_mode (p : platform) (stdin : handle) : M unit :=
  match p with
  | Windows => Win.restore_mode stdin
  | PosixLike => Posix.restore_mode stdin
  end.

Definition getch (p : platform) (fuel : nat) (stdin : handle) : D string :=
  match p with
  | Windows => Win.getch stdin
  | PosixLike => Posix.getch fuel stdin
  end.

Definition getch_noblock (p : platform) (stdin : handle) : D string :=
  match p with
  | Windows => Win.getch_noblock stdin
  | PosixLike => lift (Posix.getch_noblock stdin)
  end.

(** *** [line_input] *)

(** [ord(char)]: the code point of a string of one character. *)
Definition ord (s : string) : M Z :=
  match s with
  | String c EmptyString => ret (Z.of_N (N_of_ascii c))
  | _ => raise TypeError
  end.

(** [line[:-1]]. *)
Fixpoint drop_last (s : string) : string :=
  match s with
  | EmptyString => EmptyString
  | String c EmptyString => EmptyString
  | String c s' => String c (drop_last s')
  end.

(** [' ' * n]. *)
Fixpoint spaces (n : nat) : string :=
  match n with
  | O => EmptyString
  | S n' => String SPACE (spaces n')
  end.

(** ["\r%s\r%s%s" % (' ' * (len(prompt + line) + 5), prompt, line)]. *)
Definition redraw (prompt line : string) : string :=
  str1 CR +:+ spaces (String.length (prompt +:+ line) + 5) +:+
  str1 CR +:+ prompt +:+ line.

(** How one turn of the loop ends. *)
Inductive loop_ctl :=
| Break
| Continue (line : string).

(** The body of the loop after [char = getch(stdin)]. *)
Definition line_input_body (prompt : string) (stdout : handle)
    (char line : string) : M loop_ctl :=
  let* code := ord char in
  if decide (char = str1 LF \/ char = str1 CR) then ret Break
  else if decide (code = 0x7f \/ code = 0x08) then
    if decide (0 < String.length line)%nat then
      let line' := drop_last line in
      write stdout (redraw prompt line') >>
      ret (Continue line')
    else ret (Continue line)
  else if decide (code = 0x1b) then ret (Continue line)
  else
    let line' := line +:+ char in
    write stdout char >>
    flush stdout >>
    ret (Continue line').

(** [while True:], with [fuel] turns. *)
Fixpoint line_input_loop (p : platform) (fuel : nat) (prompt : string)
    (stdin stdout : handle) (line : string) : D string :=
  match fuel with
  | O => diverge
  | S fuel' =>
      wait* char := getch p fuel stdin in
      wait* ctl := lift (line_input_body prompt stdout char line) in
      match ctl with
      | Break => dret line
      | Continue line' => line_input_loop p fuel' prompt stdin stdout line'
      end
  end.

Definition line_input (p : platform) (fuel : nat) (prompt : string)
    (stdin stdout : handle) : D string :=
  wait* _ := lift (write stdout prompt) in
  line_input_loop p fuel prompt stdin stdout EmptyString.

End Console.

(** ** Vocabulary of the properties *)

(** The descriptor and the settings of [stdin] when it is a terminal:
    [fileno()] returns, and the kernel knows the descriptor as one. *)
Definition terminal_of (stdin : handle) (w : world) : option (fd * termios) :=
  match files w !! stdin with
  | Some f =>
      match f_fileno f with
      | Ret d => (fun t => (d, t)) <$> kernel w !! d
      | Raise _ => None
      end
  | None => None
  end.

(** The events the coming reads of [getch] and [getch_noblock] meet: on
    Windows those of the console, elsewhere those of [stdin]. *)
Definition pending (p : platform) (stdin : handle) (w : world) : list input_event :=
  match p with
  | Windows => console w
  | PosixLike =>
      match files w !! stdin with
      | Some f => f_input f
      | None => []
      end
  end.

(** An event that a blocking read lives through: nothing arrived, or
    (with [termios]) an exception other than [KeyboardInterrupt]. *)
Definition quiet (p : platform) (ev : input_event) : bool :=
  match ev, p with
  | Nothing, _ => true
  | Raises e, PosixLike => bool_decide (e <> KeyboardInterrupt)
  | _, _ => false
  end.

(** What was written to a file object so far. *)
Definition written (stdout : handle) (w : world) : option (list output_event) :=
  f_output <$> files w !! stdout.

(** The value of an attribute list: its items and those of its [cc]
    list. *)
Definition deref_attr (h : gmap loc pyobj) (l : loc) : option (attr_list * list cc_item) :=
  match h !! l with
  | Some (AttrList a) =>
      match h !! a_cc a with
      | Some (CcList items) => Some (a, items)
      | _ => None
      end
  | _ => None
  end.

(** The Saved Terminal State: the list [oldattr] refers to, with its
    value. *)
Definition saved_state (w : world) : option (loc * option (attr_list * list cc_item)) :=
  (fun l => (l, deref_attr (heap w) l)) <$> oldattr w.

(** From [w] to [w'] the global [oldattr] is the same and every
    object of the heap is as it was; new objects may have come. *)
Definition keeps_saved (w w' : world) : Prop :=
  oldattr w' = oldattr w /\ heap w ⊆ heap w'.

(** No dangling reference in [oldattr]: Python keeps alive what a
    global refers to. *)
Definition heap_closed (w : world) : Prop :=
  forall l, oldattr w = Some l -> is_Some (deref_attr (heap w) l).

Section Vocabulary.
Context {K : termios_consts}.

(** The settings [noncanonical_mode] computes from the settings [t]. *)
Definition noncanonical_of (t : termios) : termios :=
  {| c_iflag := c_iflag t; c_oflag := c_oflag t; c_cflag := c_cflag t;
     c_lflag := Z.land (c_lflag t) (Z.land (Z.lnot ICANON) (Z.lnot ECHO));
     c_ispeed := c_ispeed t; c_ospeed := c_ospeed t;
     c_cc := <[VTIME := "001"%char]> (<[VMIN := "000"%char]> (c_cc t)) |}.
End Vocabulary.

(** The world in which the coming reads meet the events [evs]. *)
Definition set_pending (p : platform) (stdin : handle)
    (evs : list input_event) (w : world) : world :=
  match p with
  | Windows => set_console evs w
  | PosixLike =>
      match files w !! stdin with
      | Some f =>
          set_files (<[stdin := {| f_fileno := f_fileno f; f_input := evs;
                                   f_output := f_output f |}]> (files w)) w
      | None => w
      end
  end.

(** What a blocking read gives at the first event that is not quiet. *)
Definition delivered (ev : input_event) : outcome string :=
  match ev with
  | Key c => Ret (str1 c)
  | Raises e => Raise e
  | Nothing => Ret EmptyString
  end.

(** What [getch_noblock] gives when [ev] is the event its read meets. *)
Definition noblock_delivered (p : platform) (ev : input_event) : outcome string :=
  match ev with
  | Key c =>
      match p with
      | PosixLike => Ret (if decide (c = LF) then str1 CR else str1 c)
      | Windows => Ret (str1 c)
      end
  | Nothing => Ret EmptyString
  | Raises e => if quiet p (Raises e) then Ret EmptyString else Raise e
  end.

(** The world with [more] written to [stdout] after what was there. *)
Definition add_output (stdout : handle) (more : list output_event) (w : world) : world :=
  match files w !! stdout with
  | Some f =>
      set_files (<[stdout := {| f_fileno := f_fileno f; f_input := f_input f;
                                f_output := f_output f ++ more |}]> (files w)) w
  | None => w
  end.

(** The world [restore_mode] leaves with [termios]: the saved settings
    are those of the terminal, when there is a terminal and a saved
    list. *)
Definition restored (stdin : handle) (w : world) : world :=
  match terminal_of stdin w, oldattr w ≫= deref_attr (heap w) with
  | Some (d, _), Some (a, items) =>
      set_kernel (<[d := termios_of a items]> (kernel w)) w
  | _, _ => w
  end.

(** *** Worlds to try the functions on *)

(** Settings of a terminal in canonical mode with echo, as Linux has
    them (32 control characters). *)
Definition cooked : termios :=
  {| c_iflag := 0x500; c_oflag := 0x5; c_cflag := 0xbf; c_lflag := 0x8a3b;
     c_ispeed := 15; c_ospeed := 15; c_cc := replicate 32 "003"%char |}.

(** A file object on descriptor [d] with the input [evs] to come. *)
Definition file_on (d : fd) (evs : list input_event) : file_obj :=
  {| f_fileno := Ret d; f_input := evs; f_output := [] |}.

(** A session at a terminal: object 0 is [stdin] on descriptor 0, object
    1 is [stdout] on descriptor 1, both the same terminal; [evs] is what
    the keyboard (and the console) will deliver. *)
Definition at_terminal (evs : list input_event) : world :=
  {| oldattr := None; heap := ∅;
     kernel := {[ 0 := cooked; 1 := cooked ]};
     files := {[ 0%nat := file_on 0 evs; 1%nat := file_on 1 [] ]};
     console := evs |}.

(** The same with input and output redirected: no descriptor is a
    terminal. *)
Definition redirected (evs : list input_event) : world :=
  {| oldattr := None; heap := ∅; kernel := ∅;
     files := {[ 0%nat := file_on 0 evs; 1%nat := file_on 1 [] ]};
     console := evs |}.

(** The session at a terminal once [save_mode] was called on Linux. *)
Definition after_save (evs : list input_event) : world :=
  {| oldattr := Some 2%positive;
     heap := {[ 1%positive := CcList (cc_items (K := linux_consts) cooked);
                2%positive := AttrList (attr_of cooked 1%positive) ]};
     kernel := {[ 0 := cooked; 1 := cooked ]};
     files := {[ 0%nat := file_on 0 evs; 1%nat := file_on 1 [] ]};
     console := evs |}.

(** The characters that end a line. *)
Definition is_terminator (c : ascii) : bool :=
  bool_decide (c = LF \/ c = CR).

(** A character [line_input] appends and echoes. *)
Definition printable (c : ascii) : bool :=
  bool_decide (c <> LF /\ c <> CR /\ c <> BS /\ c <> DEL /\ c <> ESC).

(** The events with the escape keys left out. *)
Definition remove_esc (evs : list input_event) : list input_event :=
  filter (fun ev => ev <> Key ESC) evs.

(** A terminated input: a terminator arrives, and before it only keys
    and quiet events. *)
Fixpoint terminated (p : platform) (evs : list input_event) : bool :=
  match evs with
  | [] => false
  | Key c :: evs' => if is_terminator c then true else terminated p evs'
  | ev :: evs' => quiet p ev && terminated p evs'
  end.

(** How the turn of the loop for the key [c] ends, and what it
    writes. *)
Definition key_effect (prompt : string) (c : ascii) (line : string)
    : loop_ctl * list output_event :=
  if is_terminator c then (Break, [])
  else if bool_decide (c = DEL \/ c = BS) then
    match line with
    | EmptyString => (Continue line, [])
    | _ => (Continue (drop_last line), [Write (redraw prompt (drop_last line))])
    end
  else if bool_decide (c = ESC) then (Continue line, [])
  else (Continue (line +:+ str1 c), [Write (str1 c); Flush]).

(** The line and the output of the loop over the events [evs], when a
    terminator is reached through keys and quiet events. *)
Fixpoint run_events (p : platform) (prompt : string) (evs : list input_event)
    (line : string) : option (string * list output_event) :=
  match evs with
  | [] => None
  | Key c :: evs' =>
      match key_effect prompt c line with
      | (Break, _) => Some (line, [])
      | (Continue line', out) =>
          match run_events p prompt evs' line' with
          | Some (res, out') => Some (res, out ++ out')
          | None => None
          end
      end
  | ev :: evs' => if quiet p ev then run_events p prompt evs' line else None
  end.

(** What [line_input] writes for the characters it appends. *)
Definition echo (cs : list ascii) : list output_event :=
  cs ≫= (fun c => [Write (str1 c); Flush]).

(** An input with no terminator in it: quiet events and keys that do
    not end a line. *)
Fixpoint unterminated (p : platform) (evs : list input_event) : bool :=
  match evs with
  | [] => true
  | Key c :: evs' => negb (is_terminator c) && unterminated p evs'
  | ev :: evs' => quiet p ev && unterminated p evs'
  end.

(** From [w] to [w'] the settings of every descriptor are the same, and
    every file object is on the descriptor it was on. *)
Definition same_terminals (w w' : world) : Prop :=
  kernel w' = kernel w /\
  forall h, f_fileno <$> files w' !! h = f_fileno <$> files w !! h.

(** A key that erases: delete or backspace. *)
Definition is_backspace (c : ascii) : bool :=
  bool_decide (c = DEL \/ c = BS).

Section Switched.
Context {K : termios_consts}.

(** The settings of all descriptors once [noncanonical_mode] has run
    on [stdin]: those of its terminal are the noncanonical ones when
    [stdin] is a terminal whose [cc] list has the MIN and TIME slots;
    otherwise all are as they were. *)
Definition switched (stdin : handle) (w : world) : gmap fd termios :=
  match terminal_of stdin w with
  | Some (d, t) =>
      if decide (VMIN < length (c_cc t) /\ VTIME < length (c_cc t))%nat
      then <[d := noncanonical_of t]> (kernel w)
      else kernel w
  | None => kernel w
  end.

End Switched.

(** A session at a terminal in which [stdin.fileno()] is interrupted:
    it raises [KeyboardInterrupt]. *)
Definition fileno_interrupted (evs : list input_event) : world :=
  {| oldattr := None; heap := ∅;
     kernel := {[ 0 := cooked; 1 := cooked ]};
     files := {[ 0%nat := {| f_fileno := Raise KeyboardInterrupt;
                             f_input := evs; f_output := [] |};
                 1%nat := file_on 1 [] ]};
     console := evs |}.

(** * Properties *)

(** ** Running monadic code *)

Lemma bind_run {A B} (m : M A) (k : A -> M B) w a w' :
  m w = (Ret a, w') -> bind m k w = k a w'.
Proof. unfold bind. intros ->. reflexivity. Qed.

Lemma bind_raise {A B} (m : M A) (k : A -> M B) w e w' :
  m w = (Raise e, w') -> bind m k w = (Raise e, w').
Proof. unfold bind. intros ->. reflexivity. Qed.

Lemma try_run {A} (body : M A) handler w a w' :
  body w = (Ret a, w') -> try_except body handler w = (Ret a, w').
Proof. unfold try_except. intros ->. reflexivity. Qed.

Lemma try_raise {A} (body : M A) handler w e w' :
  body w = (Raise e, w') -> try_except body handler w = handler e w'.
Proof. unfold try_except. intros ->. reflexivity. Qed.

(** A bare [except: pass] always returns, in the world the body left. *)
Lemma try_swallow (body : M unit) w :
  try_except body (fun _ => ret tt) w = (Ret tt, (body w).2).
Proof.
  unfold try_except. destruct (body w) as [[[]|e] w']; reflexivity.
Qed.

Lemma world_eta w : set_kernel (kernel w) (set_heap (heap w) w) = w.
Proof. destruct w; reflexivity. Qed.

Lemma fresh_lookup (h : gmap loc pyobj) : h !! fresh (dom h) = None.
Proof. apply not_elem_of_dom, is_fresh. Qed.

Lemma fileno_run h f w : files w !! h = Some f -> fileno h w = (f_fileno f, w).
Proof. unfold fileno. intros ->. reflexivity. Qed.

Lemma load_attr_run l a w :
  heap w !! l = Some (AttrList a) -> load_attr l w = (Ret a, w).
Proof. unfold load_attr. intros ->. reflexivity. Qed.

Lemma load_cc_run l items w :
  heap w !! l = Some (CcList items) -> load_cc l w = (Ret items, w).
Proof. unfold load_cc. intros ->. reflexivity. Qed.

Lemma set_lflag_run l a v w :
  heap w !! l = Some (AttrList a) ->
  set_lflag l v w =
    (Ret tt,
     set_heap (<[l := AttrList {| a_iflag := a_iflag a; a_oflag := a_oflag a;
                                  a_cflag := a_cflag a; a_lflag := v;
                                  a_ispeed := a_ispeed a;
                                  a_ospeed := a_ospeed a;
                                  a_cc := a_cc a |}]> (heap w)) w).
Proof.
  intros Hl. unfold set_lflag.
  rewrite (bind_run _ _ _ _ _ (load_attr_run _ _ _ Hl)). reflexivity.
Qed.

Lemma set_cc_run l a items i v w :
  heap w !! l = Some (AttrList a) ->
  heap w !! a_cc a = Some (CcList items) ->
  set_cc l i v w =
    if decide (i < length items)%nat
    then (Ret tt, set_heap (<[a_cc a := CcList (<[i := v]> items)]> (heap w)) w)
    else (Raise IndexError, w).
Proof.
  intros Hl Hcc. unfold set_cc.
  rewrite (bind_run _ _ _ _ _ (load_attr_run _ _ _ Hl)).
  rewrite (bind_run _ _ _ _ _ (load_cc_run _ _ _ Hcc)).
  case_decide; reflexivity.
Qed.

(** ** The byte values of [cc] items *)

Lemma cc_of_int_of_cc b : cc_of_int (int_of_cc b) = b.
Proof.
  unfold cc_of_int, int_of_cc.
  pose proof (N_ascii_bounded b) as Hb.
  rewrite Z.mod_small by lia.
  rewrite N2Z.id. apply ascii_N_embedding.
Qed.

Lemma cc_byte_CcBytes (l : list ascii) : cc_byte <$> (CcBytes <$> l) = l.
Proof. induction l as [|b l IH]; csimpl; congruence. Qed.

Lemma insert_default_id (l : list ascii) i :
  <[i := default "000"%char (l !! i)]> l = l.
Proof.
  destruct (l !! i) as [b|] eqn:Hi; simpl.
  - by apply list_insert_id.
  - apply list_insert_ge. by apply lookup_ge_None.
Qed.

Section TermiosFacts.
Context {K : termios_consts}.

Lemma cc_items_length t : length (cc_items t) = length (c_cc t).
Proof.
  unfold cc_items. case_decide; rewrite ?length_insert, length_fmap; done.
Qed.

(** Reading the [cc] list back gives the bytes of the kernel. *)
Lemma cc_items_bytes t : cc_byte <$> cc_items t = c_cc t.
Proof.
  unfold cc_items. case_decide.
  - rewrite !list_fmap_insert, cc_byte_CcBytes. simpl.
    rewrite !cc_of_int_of_cc.
    rewrite (insert_default_id (c_cc t) VMIN).
    apply insert_default_id.
  - apply cc_byte_CcBytes.
Qed.

Lemma termios_of_tcgetattr t l : termios_of (attr_of t l) (cc_items t) = t.
Proof.
  unfold termios_of; simpl. rewrite cc_items_bytes. destruct t; reflexivity.
Qed.

Lemma tcgetattr_notty d w :
  kernel w !! d = None -> tcgetattr d w = (Raise TermiosError, w).
Proof. unfold tcgetattr. intros ->. reflexivity. Qed.

(** On a terminal [tcgetattr] returns a new list, whose [cc] list is
    new as well; the objects that were there are as they were. *)
Lemma tcgetattr_tty d t w :
  kernel w !! d = Some t ->
  exists l a h,
    tcgetattr d w = (Ret l, set_heap h w) /\
    h !! l = Some (AttrList a) /\
    h !! a_cc a = Some (CcList (cc_items t)) /\
    a_cc a <> l /\
    heap w !! l = None /\ heap w !! a_cc a = None /\
    heap w ⊆ h /\
    a = attr_of t (a_cc a).
Proof.
  intros Ht. unfold tcgetattr. rewrite Ht.
  set (l1 := fresh (dom (heap w))).
  set (h1 := <[l1 := CcList (cc_items t)]> (heap w)).
  set (l2 := fresh (dom h1)).
  set (a0 := attr_of t l1).
  assert (H1 : heap w !! l1 = None) by apply fresh_lookup.
  assert (H2 : h1 !! l2 = None) by apply fresh_lookup.
  assert (Hne : l1 <> l2).
  { intros Heq. rewrite <- Heq in H2. unfold h1 in H2.
    by rewrite lookup_insert_eq in H2. }
  assert (H2' : heap w !! l2 = None).
  { unfold h1 in H2. by rewrite lookup_insert_ne in H2. }
  exists l2, a0, (<[l2 := AttrList a0]> h1).
  split; [reflexivity|].
  split; [apply lookup_insert_eq|].
  split; [simpl; rewrite lookup_insert_ne by congruence; apply lookup_insert_eq|].
  split; [exact Hne|].
  split; [exact H2'|].
  split; [exact H1|].
  split.
  { etrans; [apply (insert_subseteq (heap w) l1 (CcList (cc_items t)) H1)|].
    apply insert_subseteq, H2. }
  reflexivity.
Qed.

Lemma tcsetattr_run d l a items t0 w :
  heap w !! l = Some (AttrList a) ->
  heap w !! a_cc a = Some (CcList items) ->
  kernel w !! d = Some t0 ->
  tcsetattr d TCSANOW l w =
    (Ret tt, set_kernel (<[d := termios_of a items]> (kernel w)) w).
Proof.
  intros Hl Hcc Hk. unfold tcsetattr.
  rewrite (bind_run _ _ _ _ _ (load_attr_run _ _ _ Hl)).
  rewrite (bind_run _ _ _ _ _ (load_cc_run _ _ _ Hcc)).
  rewrite Hk. reflexivity.
Qed.

(** [tcsetattr] on a descriptor that is no terminal raises and changes
    nothing. *)
Lemma tcsetattr_notty d when l w :
  kernel w !! d = None ->
  exists e, tcsetattr d when l w = (Raise e, w).
Proof.
  intros Hk. unfold tcsetattr, bind, load_attr, load_cc.
  destruct (heap w !! l) as [[a|?]|]; eauto.
  destruct (heap w !! a_cc a) as [[?|items]|]; eauto.
  rewrite Hk. eauto.
Qed.

End TermiosFacts.

(** ** The three mode functions with [termios] *)

Lemma terminal_of_Some stdin w d t :
  terminal_of stdin w = Some (d, t) ->
  exists f, files w !! stdin = Some f /\ f_fileno f = Ret d /\
            kernel w !! d = Some t.
Proof.
  unfold terminal_of. intros H.
  destruct (files w !! stdin) as [f|]; [|done].
  destruct (f_fileno f) as [d'|] eqn:Hf; [|done].
  destruct (kernel w !! d') as [t'|] eqn:Hk; [|done].
  simpl in H. injection H as -> ->. exists f. auto.
Qed.

Lemma terminal_of_None stdin w :
  terminal_of stdin w = None ->
  files w !! stdin = None \/
  (exists f e, files w !! stdin = Some f /\ f_fileno f = Raise e) \/
  (exists f d, files w !! stdin = Some f /\ f_fileno f = Ret d /\
               kernel w !! d = None).
Proof.
  unfold terminal_of. intros H.
  destruct (files w !! stdin) as [f|]; [|by left].
  destruct (f_fileno f) as [d|e] eqn:Hf; [|right; left; eauto].
  destruct (kernel w !! d) eqn:Hk; [done|]. right; right; eauto.
Qed.

(** When [stdin] is no terminal, [fileno] or the first [termios] call
    raises before anything is changed. *)
Lemma fileno_raises stdin w :
  files w !! stdin = None \/
  (exists f e, files w !! stdin = Some f /\ f_fileno f = Raise e) ->
  exists e, fileno stdin w = (Raise e, w).
Proof.
  unfold fileno. intros [->|(f & e & -> & ->)]; eauto.
Qed.

Section ModeFacts.
Context {K : termios_consts}.

Lemma termios_of_noncanonical t l :
  termios_of
    {| a_iflag := c_iflag t; a_oflag := c_oflag t; a_cflag := c_cflag t;
       a_lflag := Z.land (c_lflag t) (Z.land (Z.lnot ICANON) (Z.lnot ECHO));
       a_ispeed := c_ispeed t; a_ospeed := c_ospeed t; a_cc := l |}
    (<[VTIME := CcInt 1]> (<[VMIN := CcInt 0]> (cc_items t)))
  = noncanonical_of t.
Proof.
  unfold termios_of, noncanonical_of; simpl.
  rewrite !list_fmap_insert, cc_items_bytes. reflexivity.
Qed.

Lemma save_mode_notty stdin w :
  terminal_of stdin w = None -> Posix.save_mode stdin w = (Ret tt, w).
Proof.
  intros H. unfold Posix.save_mode. rewrite try_swallow. f_equal.
  apply terminal_of_None in H as [H|[H|(f & d & Hf & Hd & Hk)]].
  - destruct (fileno_raises stdin w (or_introl H)) as [e He].
    by rewrite (bind_raise _ _ _ _ _ He).
  - destruct (fileno_raises stdin w (or_intror H)) as [e He].
    by rewrite (bind_raise _ _ _ _ _ He).
  - rewrite (bind_run _ _ _ d w) by (rewrite (fileno_run _ _ _ Hf); by rewrite Hd).
    by rewrite (bind_raise _ _ _ _ _ (tcgetattr_notty _ _ Hk)).
Qed.

(** On a terminal [save_mode] stores a new list that holds the
    settings of the terminal. *)
Lemma save_mode_tty stdin w d t :
  terminal_of stdin w = Some (d, t) ->
  exists l a h,
    Posix.save_mode stdin w = (Ret tt, set_oldattr (Some l) (set_heap h w)) /\
    heap w ⊆ h /\
    deref_attr h l = Some (a, cc_items t) /\
    termios_of a (cc_items t) = t.
Proof.
  intros H. apply terminal_of_Some in H as (f & Hf & Hd & Hk).
  destruct (tcgetattr_tty d t w Hk)
    as (l & a & h & Hrun & Hl & Hcc & _ & _ & _ & Hsub & Ha).
  exists l, a, h. split; [|split; [done|split]].
  - unfold Posix.save_mode.
    apply try_run.
    rewrite (bind_run _ _ _ d w) by (rewrite (fileno_run _ _ _ Hf); by rewrite Hd).
    by rewrite (bind_run _ _ _ _ _ Hrun).
  - unfold deref_attr. by rewrite Hl, Hcc.
  - rewrite Ha. apply termios_of_tcgetattr.
Qed.

Lemma noncanonical_mode_notty stdin w :
  terminal_of stdin w = None -> Posix.noncanonical_mode stdin w = (Ret tt, w).
Proof.
  intros H. unfold Posix.noncanonical_mode. rewrite try_swallow. f_equal.
  apply terminal_of_None in H as [H|[H|(f & d & Hf & Hd & Hk)]].
  - destruct (fileno_raises stdin w (or_introl H)) as [e He].
    by rewrite (bind_raise _ _ _ _ _ He).
  - destruct (fileno_raises stdin w (or_intror H)) as [e He].
    by rewrite (bind_raise _ _ _ _ _ He).
  - rewrite (bind_run _ _ _ d w) by (rewrite (fileno_run _ _ _ Hf); by rewrite Hd).
    by rewrite (bind_raise _ _ _ _ _ (tcgetattr_notty _ _ Hk)).
Qed.

(** On a terminal [noncanonical_mode] allocates, leaves the objects
    that were there alone, and sets the settings it computed, unless a
    slot of the [cc] list is out of range. *)
Lemma noncanonical_mode_tty stdin w d t :
  terminal_of stdin w = Some (d, t) ->
  exists h,
    heap w ⊆ h /\
    Posix.noncanonical_mode stdin w =
      (Ret tt,
       if decide (VMIN < length (c_cc t) /\ VTIME < length (c_cc t))%nat
       then set_kernel (<[d := noncanonical_of t]> (kernel w)) (set_heap h w)
       else set_heap h w).
Proof.
  intros H. apply terminal_of_Some in H as (f & Hf & Hd & Hk).
  destruct (tcgetattr_tty d t w Hk)
    as (l & a & h & Hrun & Hl & Hcc & Hne & Hwl & Hwcc & Hsub & Ha).
  set (l3 := fresh (dom h)).
  assert (H3 : h !! l3 = None) by apply fresh_lookup.
  assert (Hl3 : l3 <> l) by (intros Heq; rewrite Heq in H3; congruence).
  assert (Hc3 : l3 <> a_cc a) by (intros Heq; rewrite Heq in H3; congruence).
  assert (Hw3 : heap w !! l3 = None) by (eapply lookup_weaken_None; eauto).
  set (a' := {| a_iflag := a_iflag a; a_oflag := a_oflag a;
                a_cflag := a_cflag a;
                a_lflag := Z.land (a_lflag a)
                             (Z.land (Z.lnot ICANON) (Z.lnot ECHO));
                a_ispeed := a_ispeed a; a_ospeed := a_ospeed a;
                a_cc := a_cc a |}).
  set (h3 := <[l3 := AttrList a]> h).
  set (h4 := <[l3 := AttrList a']> h3).
  set (items1 := <[VMIN := CcInt 0]> (cc_items t)).
  set (h5 := <[a_cc a := CcList items1]> h4).
  set (items2 := <[VTIME := CcInt 1]> items1).
  set (h6 := <[a_cc a := CcList items2]> h5).
  assert (Hsub3 : heap w ⊆ h3) by (apply insert_subseteq_r; done).
  assert (Hsub4 : heap w ⊆ h4) by (apply insert_subseteq_r; done).
  assert (Hsub5 : heap w ⊆ h5) by (apply insert_subseteq_r; done).
  assert (Hsub6 : heap w ⊆ h6) by (apply insert_subseteq_r; done).
  assert (Hcopy : list_copy l (set_heap h w) = (Ret l3, set_heap h3 w)).
  { unfold list_copy.
    by rewrite (bind_run _ _ _ a (set_heap h w)) by by apply load_attr_run. }
  assert (Hload : load_attr l3 (set_heap h3 w) = (Ret a, set_heap h3 w)).
  { apply load_attr_run. apply lookup_insert_eq. }
  assert (Hlflag : set_lflag l3 (Z.land (a_lflag a)
                     (Z.land (Z.lnot ICANON) (Z.lnot ECHO))) (set_heap h3 w)
                   = (Ret tt, set_heap h4 w)).
  { rewrite (set_lflag_run l3 a) by apply lookup_insert_eq. reflexivity. }
  assert (H4l : h4 !! l3 = Some (AttrList a')) by apply lookup_insert_eq.
  assert (H4c : h4 !! a_cc a' = Some (CcList (cc_items t))).
  { unfold h4, h3. simpl. by rewrite !lookup_insert_ne. }
  assert (H5l : h5 !! l3 = Some (AttrList a')).
  { unfold h5. by rewrite lookup_insert_ne. }
  assert (H5c : h5 !! a_cc a' = Some (CcList items1)) by apply lookup_insert_eq.
  assert (H6l : h6 !! l3 = Some (AttrList a')).
  { unfold h6. by rewrite lookup_insert_ne. }
  assert (H6c : h6 !! a_cc a' = Some (CcList items2)) by apply lookup_insert_eq.
  assert (Hlen1 : length items1 = length (c_cc t)).
  { unfold items1. by rewrite length_insert, cc_items_length. }
  unfold Posix.noncanonical_mode. rewrite try_swallow.
  rewrite (bind_run _ _ _ d w) by (rewrite (fileno_run _ _ _ Hf); by rewrite Hd).
  rewrite (bind_run _ _ _ _ _ Hrun).
  rewrite (bind_run _ _ _ _ _ Hcopy).
  rewrite (bind_run _ _ _ _ _ Hload).
  rewrite (bind_run _ _ _ _ _ Hlflag).
  pose proof (set_cc_run l3 a' (cc_items t) VMIN (CcInt 0) (set_heap h4 w)
                H4l H4c) as Hmin.
  rewrite cc_items_length in Hmin.
  destruct (decide (VMIN < length (c_cc t))%nat) as [Hm|Hm].
  2:{ rewrite (bind_raise _ _ _ _ _ Hmin). exists h4. split; [done|].
      rewrite decide_False by tauto. reflexivity. }
  rewrite (bind_run _ _ _ _ _ Hmin).
  pose proof (set_cc_run l3 a' items1 VTIME (CcInt 1) (set_heap h5 w)
                H5l H5c) as Htime.
  rewrite Hlen1 in Htime.
  destruct (decide (VTIME < length (c_cc t))%nat) as [Ht|Ht].
  2:{ rewrite (bind_raise _ _ _ _ _ Htime). exists h5. split; [done|].
      rewrite decide_False by tauto. reflexivity. }
  rewrite (bind_run _ _ _ _ _ Htime).
  rewrite (tcsetattr_run d l3 a' items2 t (set_heap h6 w) H6l H6c Hk).
  exists h6. split; [done|].
  rewrite decide_True by tauto. simpl. do 3 f_equal.
  unfold a', items2, items1. rewrite Ha. simpl.
  apply termios_of_noncanonical.
Qed.

End ModeFacts.

Section RestoreFacts.
Context {K : termios_consts}.

(** All of what [restore_mode] does. *)
Lemma restore_mode_run stdin w :
  Posix.restore_mode stdin w = (Ret tt, restored stdin w).
Proof.
  unfold Posix.restore_mode. rewrite try_swallow. f_equal.
  unfold restored.
  destruct (terminal_of stdin w) as [[d t]|] eqn:Hterm.
  - apply terminal_of_Some in Hterm as (f & Hf & Hd & Hk).
    rewrite (bind_run _ _ _ d w) by (rewrite (fileno_run _ _ _ Hf); by rewrite Hd).
    destruct (oldattr w) as [l|]; [|done]. simpl.
    unfold deref_attr.
    destruct (heap w !! l) as [[a|?]|] eqn:Hl;
      try (unfold tcsetattr, bind, load_attr; by rewrite Hl).
    destruct (heap w !! a_cc a) as [[?|items]|] eqn:Hcc;
      try (unfold tcsetattr, bind, load_attr, load_cc; by rewrite Hl, Hcc).
    by rewrite (tcsetattr_run d l a items t w Hl Hcc Hk).
  - apply terminal_of_None in Hterm as [H|[H|(f & d & Hf & Hd & Hk)]].
    + destruct (fileno_raises stdin w (or_introl H)) as [e He].
      by rewrite (bind_raise _ _ _ _ _ He).
    + destruct (fileno_raises stdin w (or_intror H)) as [e He].
      by rewrite (bind_raise _ _ _ _ _ He).
    + rewrite (bind_run _ _ _ d w) by (rewrite (fileno_run _ _ _ Hf); by rewrite Hd).
      destruct (oldattr w) as [l|]; [|done].
      by destruct (tcsetattr_notty d TCSANOW l w Hk) as [e ->].
Qed.

Lemma restored_twice stdin w :
  restored stdin (restored stdin w) = restored stdin w.
Proof.
  unfold restored at 2 3.
  destruct (terminal_of stdin w) as [[d t]|] eqn:Hterm.
  2:{ unfold restored. by rewrite Hterm. }
  destruct (oldattr w ≫= deref_attr (heap w)) as [[a items]|] eqn:Hsaved.
  2:{ unfold restored. by rewrite Hterm, Hsaved. }
  apply terminal_of_Some in Hterm as (f & Hf & Hd & Hk).
  unfold restored, terminal_of. simpl.
  rewrite Hf, Hd, lookup_insert_eq, Hsaved. simpl.
  unfold set_kernel; simpl. by rewrite insert_insert_eq.
Qed.

Lemma restored_saved_state stdin w : saved_state (restored stdin w) = saved_state w.
Proof.
  unfold restored.
  destruct (terminal_of stdin w) as [[d t]|]; [|done].
  by destruct (oldattr w ≫= deref_attr (heap w)) as [[a items]|].
Qed.

Lemma restored_no_saved stdin w : oldattr w = None -> restored stdin w = w.
Proof.
  intros H. unfold restored. rewrite H. simpl.
  by destruct (terminal_of stdin w) as [[d t]|].
Qed.

End RestoreFacts.

(** ** The mode functions on both variants *)

Lemma land_clears_left l i e :
  Z.land (Z.land l (Z.land (Z.lnot i) (Z.lnot e))) i = 0.
Proof.
  apply Z.bits_inj'. intros n Hn.
  rewrite !Z.land_spec, !Z.lnot_spec, Z.bits_0 by lia.
  destruct (Z.testbit l n), (Z.testbit i n), (Z.testbit e n); reflexivity.
Qed.

Lemma land_clears_right l i e :
  Z.land (Z.land l (Z.land (Z.lnot i) (Z.lnot e))) e = 0.
Proof.
  apply Z.bits_inj'. intros n Hn.
  rewrite !Z.land_spec, !Z.lnot_spec, Z.bits_0 by lia.
  destruct (Z.testbit l n), (Z.testbit i n), (Z.testbit e n); reflexivity.
Qed.

Section ModeClaims.
Context {K : termios_consts}.

(** What [noncanonical_mode] does to the world, terminal or not:
    objects are added to the heap and settings may change; it always
    returns. *)
Lemma noncanonical_mode_effect stdin w :
  exists h k,
    heap w ⊆ h /\
    Posix.noncanonical_mode stdin w = (Ret tt, set_kernel k (set_heap h w)).
Proof.
  destruct (terminal_of stdin w) as [[d t]|] eqn:Hterm.
  - destruct (noncanonical_mode_tty stdin w d t Hterm) as (h & Hsub & Hrun).
    case_decide.
    + eauto.
    + exists h, (kernel w). split; [done|]. rewrite Hrun.
      by destruct w.
  - exists (heap w), (kernel w). split; [done|].
    rewrite noncanonical_mode_notty by done. by rewrite world_eta.
Qed.

(** C7. When [stdin] is not a terminal (it is no file object, its
    [fileno()] raises, or its descriptor is not a terminal), each of
    [save_mode], [noncanonical_mode] and [restore_mode] returns
    without raising and leaves the whole world as it was; so
    [oldattr] and the value it refers to are unchanged. *)
Theorem mode_functions_silent_without_terminal p stdin w :
  terminal_of stdin w = None ->
  save_mode p stdin w = (Ret tt, w) /\
  noncanonical_mode p stdin w = (Ret tt, w) /\
  restore_mode p stdin w = (Ret tt, w).
Proof.
  intros Hterm. destruct p; simpl.
  - repeat split.
  - split; [by apply save_mode_notty|].
    split; [by apply noncanonical_mode_notty|].
    rewrite restore_mode_run. unfold restored. by rewrite Hterm.
Qed.

(** C8. [restore_mode] always returns; a second call right after the
    first returns in the world the first one left, so the settings of
    the terminal are those one call sets; the saved state is the same
    after as before; and with no saved state the call changes
    nothing. *)
Theorem restore_mode_idempotent p stdin w :
  let w1 := (restore_mode p stdin w).2 in
  restore_mode p stdin w = (Ret tt, w1) /\
  restore_mode p stdin w1 = (Ret tt, w1) /\
  saved_state w1 = saved_state w /\
  restore_mode p stdin (set_oldattr None w) = (Ret tt, set_oldattr None w).
Proof.
  destruct p; simpl.
  - repeat split.
  - rewrite !restore_mode_run. simpl.
    rewrite restored_twice, restored_saved_state.
    by rewrite (restored_no_saved stdin (set_oldattr None w)).
Qed.

(** Computing the noncanonical settings from settings that are
    noncanonical already gives the same settings. *)
Lemma noncanonical_of_twice t :
  noncanonical_of (noncanonical_of t) = noncanonical_of t.
Proof.
  unfold noncanonical_of; simpl. f_equal.
  - by rewrite <- Z.land_assoc, Z.land_diag.
  - destruct (decide (VMIN = VTIME)) as [Heq|Hne].
    + rewrite Heq. by rewrite !list_insert_insert_eq.
    + rewrite (list_insert_insert_ne _ VMIN VTIME) by done.
      by rewrite !list_insert_insert_eq.
Qed.

(** X20. Entering noncanonical mode again changes no setting: on a
    terminal whose [cc] list has the MIN and TIME slots, a second
    [noncanonical_mode] leaves the settings of every descriptor as the
    first one left them. *)
Lemma noncanonical_mode_twice stdin w d t :
  terminal_of stdin w = Some (d, t) ->
  (VMIN < length (c_cc t))%nat ->
  (VTIME < length (c_cc t))%nat ->
  let w1 := (noncanonical_mode PosixLike stdin w).2 in
  kernel (noncanonical_mode PosixLike stdin w1).2 = kernel w1.
Proof.
  intros Hterm Hmin Htime. simpl.
  destruct (noncanonical_mode_tty stdin w d t Hterm) as (h & _ & Hrun).
  rewrite decide_True in Hrun by done. rewrite Hrun. simpl.
  set (w1 := set_kernel _ _).
  assert (Hterm1 : terminal_of stdin w1 = Some (d, noncanonical_of t)).
  { apply terminal_of_Some in Hterm as (f & Hf & Hd & Hk).
    unfold terminal_of, w1. simpl. by rewrite Hf, Hd, lookup_insert_eq. }
  destruct (noncanonical_mode_tty stdin w1 d _ Hterm1) as (h1 & _ & Hrun1).
  rewrite decide_True in Hrun1
    by (unfold noncanonical_of; simpl; by rewrite !length_insert).
  rewrite Hrun1. unfold w1. simpl.
  by rewrite noncanonical_of_twice, insert_insert_eq.
Qed.

(** C9. With [termios], on a terminal whose [cc] list has the MIN and
    TIME slots, [noncanonical_mode] returns and the settings of the
    terminal are then those it read from the terminal in this call,
    with ICANON and ECHO cleared in the local flags, MIN set to 0 and
    TIME set to 1. *)
Theorem noncanonical_mode_sets_raw_input stdin w d t :
  terminal_of stdin w = Some (d, t) ->
  (VMIN < length (c_cc t))%nat ->
  (VTIME < length (c_cc t))%nat ->
  VMIN <> VTIME ->
  exists w',
    noncanonical_mode PosixLike stdin w = (Ret tt, w') /\
    kernel w' = <[d := noncanonical_of t]> (kernel w) /\
    Z.land (c_lflag (noncanonical_of t)) ICANON = 0 /\
    Z.land (c_lflag (noncanonical_of t)) ECHO = 0 /\
    c_cc (noncanonical_of t) !! VMIN = Some "000"%char /\
    c_cc (noncanonical_of t) !! VTIME = Some "001"%char.
Proof.
  intros Hterm Hmin Htime Hne. simpl.
  destruct (noncanonical_mode_tty stdin w d t Hterm) as (h & _ & Hrun).
  rewrite decide_True in Hrun by done.
  eexists. split; [exact Hrun|]. split; [reflexivity|].
  split; [apply land_clears_left|]. split; [apply land_clears_right|].
  unfold noncanonical_of; simpl. split.
  - rewrite list_lookup_insert_ne by done.
    by apply list_lookup_insert_eq.
  - apply list_lookup_insert_eq. by rewrite length_insert.
Qed.

End ModeClaims.

Lemma mode_functions_silent_without_terminal_witness :
  save_mode (K := linux_consts) PosixLike 0 (redirected [Key "a"%char])
    = (Ret tt, redirected [Key "a"%char]) /\
  noncanonical_mode (K := linux_consts) PosixLike 0 (redirected [Key "a"%char])
    = (Ret tt, redirected [Key "a"%char]) /\
  restore_mode (K := linux_consts) PosixLike 0 (redirected [Key "a"%char])
    = (Ret tt, redirected [Key "a"%char]).
Proof.
  apply (@mode_functions_silent_without_terminal linux_consts PosixLike 0
           (redirected [Key "a"%char])).
  reflexivity.
Defined.

Lemma noncanonical_mode_sets_raw_input_witness :
  exists w',
    noncanonical_mode (K := linux_consts) PosixLike 0 (at_terminal []) = (Ret tt, w') /\
    kernel w' = <[0 := noncanonical_of (K := linux_consts) cooked]>
                  (kernel (at_terminal [])).
Proof.
  destruct (@noncanonical_mode_sets_raw_input linux_consts 0 (at_terminal []) 0 cooked)
    as (w' & Hrun & Hk & _).
  - reflexivity.
  - vm_compute. lia.
  - vm_compute. lia.
  - vm_compute. lia.
  - exists w'. split; assumption.
Defined.

(** ** Reading one character *)

Lemma set_pending_twice p stdin evs evs' w :
  set_pending p stdin evs (set_pending p stdin evs' w) = set_pending p stdin evs w.
Proof.
  destruct p; [reflexivity|]. unfold set_pending.
  destruct (files w !! stdin) as [f|] eqn:Hf; simpl; [|by rewrite Hf].
  rewrite lookup_insert_eq. unfold set_files; simpl.
  by rewrite insert_insert_eq.
Qed.

Lemma pending_set_pending p stdin evs w :
  (p = PosixLike -> is_Some (files w !! stdin)) ->
  pending p stdin (set_pending p stdin evs w) = evs.
Proof.
  destruct p; [reflexivity|]. intros H. destruct (H eq_refl) as [f Hf].
  unfold pending, set_pending. rewrite Hf. simpl.
  by rewrite lookup_insert_eq.
Qed.

(** A non-empty [pending] on the [termios] side is the input of a file
    object. *)
Lemma pending_posix_file stdin w ev evs :
  pending PosixLike stdin w = ev :: evs ->
  exists f, files w !! stdin = Some f /\ f_input f = ev :: evs.
Proof.
  unfold pending. destruct (files w !! stdin) as [f|]; [eauto|done].
Qed.

Lemma pending_after_mode {K : termios_consts} p stdin w :
  pending p stdin (noncanonical_mode p stdin w).2 = pending p stdin w.
Proof.
  destruct p; [reflexivity|]. simpl.
  destruct (noncanonical_mode_effect stdin w) as (h & k & _ & ->).
  reflexivity.
Qed.

Lemma quiet_posix_raises e :
  quiet PosixLike (Raises e) = true -> e <> KeyboardInterrupt.
Proof. simpl. intros H. by apply bool_decide_eq_true in H. Qed.

Lemma loud_posix_raises e :
  quiet PosixLike (Raises e) = false -> e = KeyboardInterrupt.
Proof.
  simpl. intros H. apply bool_decide_eq_false in H.
  destruct (decide (e = KeyboardInterrupt)); tauto.
Qed.

Lemma read1_run stdin w f ev evs :
  files w !! stdin = Some f ->
  f_input f = ev :: evs ->
  read1 stdin w =
    (match ev with
     | Key c => Ret (str1 c)
     | Nothing => Ret EmptyString
     | Raises e => Raise e
     end, set_pending PosixLike stdin evs w).
Proof.
  intros Hf Hin. unfold read1, set_pending. rewrite Hf, Hin.
  destruct ev; reflexivity.
Qed.

(** At the end of the input [read(1)] gives [''] and changes nothing. *)
Lemma read1_eof stdin w f :
  files w !! stdin = Some f -> f_input f = [] ->
  read1 stdin w = (Ret EmptyString, w).
Proof. intros Hf Hin. unfold read1. by rewrite Hf, Hin. Qed.

Lemma try_read_run stdin char w f ev evs :
  files w !! stdin = Some f ->
  f_input f = ev :: evs ->
  Posix.try_read stdin char w =
    (match ev with
     | Key c => Ret (str1 c)
     | Nothing => Ret EmptyString
     | Raises e => if decide (e = KeyboardInterrupt)
                   then Raise KeyboardInterrupt else Ret char
     end, set_pending PosixLike stdin evs w).
Proof.
  intros Hf Hin. unfold Posix.try_read, try_except.
  rewrite (read1_run _ _ _ _ _ Hf Hin).
  destruct ev as [c| |e]; try reflexivity.
  destruct e; reflexivity.
Qed.

(** Whatever the input does, the [try] statement gives [char] back, a
    string of one character, or [''], unless it raises. *)
Lemma try_read_shape stdin char w s w' :
  Posix.try_read stdin char w = (Ret s, w') ->
  s = char \/ s = EmptyString \/ exists c, s = str1 c.
Proof.
  unfold Posix.try_read, try_except, read1.
  destruct (files w !! stdin) as [f|].
  - destruct (f_input f) as [|[c| |e] evs].
    + intros [= <- _]. auto.
    + intros [= <- _]. eauto.
    + intros [= <- _]. auto.
    + destruct e; intros [= <- _]; auto.
  - intros [= <- _]. auto.
Qed.

Lemma getch_loop_done fuel stdin char :
  char <> EmptyString -> Posix.getch_loop fuel stdin char = dret char.
Proof. intros H. destruct fuel; simpl; by rewrite decide_False. Qed.

Lemma getch_loop_step fuel stdin :
  Posix.getch_loop (S fuel) stdin EmptyString =
    dbind (lift (Posix.try_read stdin EmptyString))
          (fun char' => Posix.getch_loop fuel stdin char').
Proof. reflexivity. Qed.

(** The loop of [getch] reads through the quiet events and ends at the
    first event that is not quiet. *)
Lemma getch_loop_run stdin pre :
  forall fuel w f ev rest,
    files w !! stdin = Some f ->
    f_input f = pre ++ ev :: rest ->
    Forall (fun e => quiet PosixLike e = true) pre ->
    quiet PosixLike ev = false ->
    (length pre < fuel)%nat ->
    Posix.getch_loop fuel stdin EmptyString w =
      Some (delivered ev, set_pending PosixLike stdin rest w).
Proof.
  induction pre as [|ev0 pre IH]; intros fuel w f ev rest Hf Hin Hq Hev Hfuel.
  - destruct fuel as [|fuel]; [simpl in Hfuel; lia|].
    rewrite getch_loop_step. unfold dbind, lift.
    rewrite (try_read_run _ _ _ _ _ _ Hf Hin).
    destruct ev as [c| |e].
    + by rewrite getch_loop_done.
    + done.
    + apply loud_posix_raises in Hev as ->. reflexivity.
  - destruct fuel as [|fuel]; [simpl in Hfuel; lia|].
    apply Forall_cons in Hq as [Hq0 Hq].
    rewrite getch_loop_step. unfold dbind, lift.
    rewrite (try_read_run _ _ _ _ _ _ Hf Hin).
    assert (Hnext : forall w1 : world,
              w1 = set_pending PosixLike stdin (pre ++ ev :: rest) w ->
              Posix.getch_loop fuel stdin EmptyString w1 =
                Some (delivered ev, set_pending PosixLike stdin rest w)).
    { intros w1 ->.
      rewrite <- (set_pending_twice PosixLike stdin rest (pre ++ ev :: rest) w).
      eapply IH; eauto.
      - unfold set_pending. rewrite Hf. simpl. apply lookup_insert_eq.
      - reflexivity.
      - simpl in Hfuel. lia. }
    destruct ev0 as [c| |e].
    + done.
    + by apply Hnext.
    + rewrite decide_False by by apply quiet_posix_raises.
      by apply Hnext.
Qed.

Lemma quiet_windows ev : quiet Windows ev = true -> ev = Nothing.
Proof. by destruct ev. Qed.

Lemma wait_key_run pre ev rest :
  Forall (fun e => quiet Windows e = true) pre ->
  quiet Windows ev = false ->
  wait_key (pre ++ ev :: rest) =
    Some (match ev with
          | Key c => Ret c
          | Raises e => Raise e
          | Nothing => Ret "000"%char
          end, rest).
Proof.
  intros Hq Hev. induction pre as [|ev0 pre IH]; simpl.
  - by destruct ev.
  - apply Forall_cons in Hq as [Hq0 Hq].
    apply quiet_windows in Hq0 as ->. by apply IH.
Qed.

Lemma decode_latin1_key c : decode_latin1 [byte_of_ascii c] = str1 c.
Proof.
  change (String (ascii_of_byte (byte_of_ascii c)) EmptyString = str1 c).
  by rewrite ascii_of_byte_of_ascii.
Qed.

Section GetchFacts.
Context {K : termios_consts}.

(** [getch] on either variant: the quiet events are lived through,
    and the first event that is not quiet decides. *)
Lemma getch_run p fuel stdin w pre ev rest :
  pending p stdin w = pre ++ ev :: rest ->
  Forall (fun e => quiet p e = true) pre ->
  quiet p ev = false ->
  (length pre < fuel)%nat ->
  getch p fuel stdin w =
    Some (delivered ev,
          set_pending p stdin rest (noncanonical_mode p stdin w).2).
Proof.
  intros Hpend Hq Hev Hfuel. destruct p.
  - simpl in *. unfold Win.getch, dbind, msvcrt_getch. rewrite Hpend.
    rewrite (wait_key_run pre ev rest Hq Hev).
    destruct ev as [c| |e]; [|done|done].
    unfold dret. by rewrite decode_latin1_key.
  - assert (exists f, files w !! stdin = Some f /\
                      f_input f = pre ++ ev :: rest) as (f & Hf & Hin).
    { unfold pending in Hpend.
      destruct (files w !! stdin) as [f|]; [eauto|by destruct pre]. }
    change (Posix.getch fuel stdin w =
              Some (delivered ev,
                    set_pending PosixLike stdin rest
                      (Posix.noncanonical_mode stdin w).2)).
    unfold Posix.getch, dbind, lift.
    destruct (noncanonical_mode_effect stdin w) as (h & k & _ & ->).
    cbn [snd].
    by apply (getch_loop_run stdin pre fuel _ f).
Qed.

Lemma getch_loop_length fuel stdin :
  forall char w s w',
    (char = EmptyString \/ String.length char = 1%nat) ->
    Posix.getch_loop fuel stdin char w = Some (Ret s, w') ->
    String.length s = 1%nat.
Proof.
  induction fuel as [|fuel IH]; intros char w s w' Hchar; simpl.
  - case_decide; [done|]. intros [= <- _]. destruct Hchar; done.
  - case_decide as Hc.
    + unfold dbind, lift.
      destruct (Posix.try_read stdin char w) as [[s1|e] w1] eqn:Hread; [|done].
      apply IH. subst char.
      apply try_read_shape in Hread as [->|[->|[c ->]]]; auto.
    + intros [= <- _]. destruct Hchar; done.
Qed.

(** [getch] never returns an empty string, nor a longer one. *)
Lemma getch_length p fuel stdin w s w' :
  getch p fuel stdin w = Some (Ret s, w') -> String.length s = 1%nat.
Proof.
  destruct p; simpl.
  - unfold Win.getch, dbind, msvcrt_getch.
    destruct (wait_key (console w)) as [[[c|e] evs]|]; [|done|done].
    unfold dret. intros [= <- _]. by rewrite decode_latin1_key.
  - unfold Posix.getch, dbind, lift.
    destruct (noncanonical_mode_effect stdin w) as (h & k & _ & ->).
    apply getch_loop_length. auto.
Qed.

(** At the end of the input, or at a console that stays idle, [getch]
    never returns, whatever the fuel. *)
Lemma getch_loop_eof stdin fuel :
  forall w f,
    files w !! stdin = Some f -> f_input f = [] ->
    Posix.getch_loop fuel stdin EmptyString w = None.
Proof.
  induction fuel as [|fuel IH]; intros w f Hf Hin; [reflexivity|].
  rewrite getch_loop_step. unfold dbind, lift.
  unfold Posix.try_read, try_except. rewrite (read1_eof _ _ _ Hf Hin).
  by apply (IH w f).
Qed.

Lemma getch_waits_without_input p fuel stdin w :
  pending p stdin w = [] ->
  (p = PosixLike -> is_Some (files w !! stdin)) ->
  getch p fuel stdin w = None.
Proof.
  intros Hpend Hfile. destruct p; simpl in *.
  - unfold Win.getch, dbind, msvcrt_getch. by rewrite Hpend.
  - destruct (Hfile eq_refl) as [f Hf]. rewrite Hf in Hpend.
    unfold Posix.getch, dbind, lift.
    destruct (noncanonical_mode_effect stdin w) as (h & k & _ & ->).
    by apply (getch_loop_eof stdin fuel _ f).
Qed.

End GetchFacts.

Section GetchClaims.
Context {K : termios_consts}.

Lemma files_after_mode p stdin w :
  files (noncanonical_mode p stdin w).2 = files w.
Proof.
  destruct p; [reflexivity|]. simpl.
  by destruct (noncanonical_mode_effect stdin w) as (h & k & _ & ->).
Qed.

Lemma pending_after_getch p stdin w ev evs rest :
  pending p stdin w = ev :: evs ->
  pending p stdin (set_pending p stdin rest (noncanonical_mode p stdin w).2)
    = rest.
Proof.
  intros Hpend. apply pending_set_pending. intros ->.
  rewrite files_after_mode.
  apply pending_posix_file in Hpend as (f & -> & _). eauto.
Qed.

(** [getch_noblock] on either variant, by the event its read meets. *)
Lemma getch_noblock_run p stdin w ev rest :
  pending p stdin w = ev :: rest ->
  getch_noblock p stdin w =
    Some (noblock_delivered p ev,
          set_pending p stdin rest (noncanonical_mode p stdin w).2).
Proof.
  intros Hpend. destruct p.
  - simpl in *. unfold Win.getch_noblock, dbind, lift, kbhit.
    rewrite Hpend. destruct ev as [c| |e]; try reflexivity.
    unfold Win.getch, dbind, msvcrt_getch. rewrite Hpend. simpl.
    unfold dret. by rewrite decode_latin1_key.
  - apply pending_posix_file in Hpend as (f & Hf & Hin).
    change (Some (Posix.getch_noblock stdin w) =
              Some (noblock_delivered PosixLike ev,
                    set_pending PosixLike stdin rest
                      (Posix.noncanonical_mode stdin w).2)).
    f_equal. unfold Posix.getch_noblock.
    destruct (noncanonical_mode_effect stdin w) as (h & k & _ & Hnc).
    rewrite (bind_run _ _ _ _ _ Hnc), Hnc. cbn [snd].
    pose proof (try_read_run stdin EmptyString
                  (set_kernel k (set_heap h w)) f ev rest Hf Hin) as Hread.
    destruct ev as [c| |e].
    + rewrite (bind_run _ _ _ _ _ Hread). simpl.
      unfold str1. destruct (decide (c = LF)) as [->|Hc].
      * by rewrite decide_True.
      * rewrite decide_False; [done|]. intros [= ?]. done.
    + by rewrite (bind_run _ _ _ _ _ Hread).
    + simpl. destruct (decide (e = KeyboardInterrupt)) as [->|He].
      * by rewrite (bind_raise _ _ _ _ _ Hread).
      * rewrite (bind_run _ _ _ _ _ Hread).
        by rewrite bool_decide_eq_true_2.
Qed.

(** C1, amended. With [termios], when the read of [getch_noblock]
    meets a newline, [getch_noblock] returns a carriage return, and
    the newline is consumed. *)
Theorem getch_noblock_newline_posix stdin w rest :
  pending PosixLike stdin w = Key LF :: rest ->
  exists w',
    getch_noblock PosixLike stdin w = Some (Ret (str1 CR), w') /\
    pending PosixLike stdin w' = rest.
Proof.
  intros Hpend. eexists. split.
  - by rewrite (getch_noblock_run PosixLike stdin w _ _ Hpend).
  - by eapply pending_after_getch.
Qed.

(** C5. When the events to come are quiet ones followed by a
    character, [getch] with more fuel than there are quiet events
    returns that character as a string of length one, having consumed
    the events up to it; and whenever [getch] returns, in any world,
    the string it returns has exactly one character. *)
Theorem getch_returns_one_character p fuel stdin w pre c rest :
  pending p stdin w = pre ++ Key c :: rest ->
  Forall (fun e => quiet p e = true) pre ->
  (length pre < fuel)%nat ->
  (exists w',
     getch p fuel stdin w = Some (Ret (str1 c), w') /\
     String.length (str1 c) = 1%nat /\
     pending p stdin w' = rest) /\
  (forall fuel0 w0 s w1,
     getch p fuel0 stdin w0 = Some (Ret s, w1) -> String.length s = 1%nat).
Proof.
  intros Hpend Hq Hfuel. split.
  - eexists. split; [|split; [reflexivity|]].
    + by apply (getch_run p fuel stdin w pre (Key c) rest).
    + destruct pre; by eapply pending_after_getch.
  - intros fuel0 w0 s w1. apply getch_length.
Qed.

(** C6. When the events to come are quiet ones followed by a
    [KeyboardInterrupt], [getch] raises [KeyboardInterrupt] to its
    caller and reads nothing after it; and when the one read of
    [getch_noblock] meets a [KeyboardInterrupt], [getch_noblock]
    raises it to its caller. *)
Theorem keyboard_interrupt_propagates p fuel stdin w pre rest :
  pending p stdin w = pre ++ Raises KeyboardInterrupt :: rest ->
  Forall (fun e => quiet p e = true) pre ->
  (length pre < fuel)%nat ->
  (exists w',
     getch p fuel stdin w = Some (Raise KeyboardInterrupt, w') /\
     pending p stdin w' = rest) /\
  (exists w',
     getch_noblock p stdin
       (set_pending p stdin (Raises KeyboardInterrupt :: rest) w)
       = Some (Raise KeyboardInterrupt, w') /\
     pending p stdin w' = rest).
Proof.
  intros Hpend Hq Hfuel.
  assert (Hfile : p = PosixLike -> is_Some (files w !! stdin)).
  { intros ->. destruct pre;
      apply pending_posix_file in Hpend as (f & -> & _); eauto. }
  split.
  - eexists. split.
    + apply (getch_run p fuel stdin w pre (Raises KeyboardInterrupt) rest);
        try done.
      by destruct p.
    + destruct pre; by eapply pending_after_getch.
  - pose proof (pending_set_pending p stdin
                  (Raises KeyboardInterrupt :: rest) w Hfile) as Hpend'.
    eexists. split.
    + rewrite (getch_noblock_run p stdin _ _ _ Hpend').
      by destruct p.
    + by eapply pending_after_getch.
Qed.

End GetchClaims.

(** C1 does not hold for every variant: on Windows a newline key
    comes back from [getch_noblock] as a newline, since [getch] returns
    the key of the console as it is. *)
Lemma getch_noblock_newline_windows :
  ~ (forall (p : platform) (stdin : handle) (w : world) rest,
        pending p stdin w = Key LF :: rest ->
        exists w',
          getch_noblock (K := linux_consts) p stdin w
            = Some (Ret (str1 CR), w')).
Proof.
  intros H.
  destruct (H Windows 0%nat (at_terminal [Key LF]) [] eq_refl) as [w' Hw'].
  rewrite (getch_noblock_run Windows 0%nat (at_terminal [Key LF]) (Key LF) []
             eq_refl) in Hw'.
  discriminate Hw'.
Qed.

Lemma getch_noblock_newline_posix_witness :
  exists w',
    getch_noblock (K := linux_consts) PosixLike 0 (at_terminal [Key LF; Key "a"%char])
      = Some (Ret (str1 CR), w') /\
    pending PosixLike 0 w' = [Key "a"%char].
Proof.
  apply (@getch_noblock_newline_posix linux_consts 0
           (at_terminal [Key LF; Key "a"%char]) [Key "a"%char]).
  reflexivity.
Defined.

Lemma getch_returns_one_character_witness :
  exists w',
    getch (K := linux_consts) PosixLike 3 0
      (redirected [Nothing; Raises OSError; Key "a"%char; Key "b"%char])
      = Some (Ret (str1 "a"%char), w') /\
    String.length (str1 "a"%char) = 1%nat /\
    pending PosixLike 0 w' = [Key "b"%char].
Proof.
  apply (@getch_returns_one_character linux_consts PosixLike 3 0
           (redirected [Nothing; Raises OSError; Key "a"%char; Key "b"%char])
           [Nothing; Raises OSError] "a"%char [Key "b"%char]).
  - reflexivity.
  - repeat constructor.
  - simpl. lia.
Defined.

Lemma keyboard_interrupt_propagates_witness :
  exists w',
    getch (K := linux_consts) PosixLike 2 0
      (at_terminal [Nothing; Raises KeyboardInterrupt; Key "a"%char])
      = Some (Raise KeyboardInterrupt, w') /\
    pending PosixLike 0 w' = [Key "a"%char].
Proof.
  apply (@keyboard_interrupt_propagates linux_consts PosixLike 2 0
           (at_terminal [Nothing; Raises KeyboardInterrupt; Key "a"%char])
           [Nothing] [Key "a"%char]).
  - reflexivity.
  - repeat constructor.
  - simpl. lia.
Defined.

(** ** The line editor *)

Lemma append_str1 line c s : (line +:+ str1 c) +:+ s = line +:+ String c s.
Proof.
  induction line as [|a line IH]; [reflexivity|].
  exact (f_equal (String a) IH).
Qed.

Lemma append_empty s : s +:+ EmptyString = s.
Proof.
  induction s as [|a s IH]; [reflexivity|].
  exact (f_equal (String a) IH).
Qed.


Lemma drop_last_length line :
  String.length (drop_last line) = Nat.pred (String.length line).
Proof.
  induction line as [|a line IH]; [done|].
  destruct line as [|b line]; [done|].
  change (S (String.length (drop_last (String b line))) =
            String.length (String b line)).
  rewrite IH. reflexivity.
Qed.

Lemma code_point c n :
  (n < 256)%N -> Z.of_N (N_of_ascii c) = Z.of_N n <-> c = ascii_of_N n.
Proof.
  intros Hn. split.
  - intros H. apply N2Z.inj in H. rewrite <- H. by rewrite ascii_N_embedding.
  - intros ->. by rewrite N_ascii_embedding.
Qed.

Lemma code_backspace c :
  Z.of_N (N_of_ascii c) = 0x7f \/ Z.of_N (N_of_ascii c) = 0x08 <->
  c = DEL \/ c = BS.
Proof.
  pose proof (code_point c 127 eq_refl) as H1.
  pose proof (code_point c 8 eq_refl) as H2.
  change (Z.of_N 127) with 0x7f in H1. change (Z.of_N 8) with 0x08 in H2.
  change (ascii_of_N 127) with DEL in H1. change (ascii_of_N 8) with BS in H2.
  tauto.
Qed.

Lemma code_escape c : Z.of_N (N_of_ascii c) = 0x1b <-> c = ESC.
Proof. apply (code_point c 27 eq_refl). Qed.

Lemma str1_terminator c :
  str1 c = str1 LF \/ str1 c = str1 CR <-> c = LF \/ c = CR.
Proof.
  unfold str1. split.
  - intros [[= ->]|[= ->]]; auto.
  - intros [->| ->]; auto.
Qed.

Lemma emit_run stdout ev w :
  is_Some (files w !! stdout) ->
  emit stdout ev w = (Ret tt, add_output stdout [ev] w).
Proof.
  intros [f Hf]. unfold emit, add_output. by rewrite Hf.
Qed.

Lemma add_output_file stdout more w :
  is_Some (files w !! stdout) ->
  is_Some (files (add_output stdout more w) !! stdout).
Proof.
  intros [f Hf]. unfold add_output. rewrite Hf. simpl.
  rewrite lookup_insert_eq. eauto.
Qed.

Lemma add_output_nil stdout w : add_output stdout [] w = w.
Proof.
  unfold add_output. destruct (files w !! stdout) as [f|] eqn:Hf; [|done].
  rewrite app_nil_r. destruct w as [o h k fs c]; simpl in *.
  unfold set_files; simpl. f_equal.
  apply insert_id. rewrite Hf. by destruct f.
Qed.

Lemma add_output_app stdout o1 o2 w :
  add_output stdout o2 (add_output stdout o1 w) = add_output stdout (o1 ++ o2) w.
Proof.
  unfold add_output. destruct (files w !! stdout) as [f|] eqn:Hf; simpl.
  - rewrite lookup_insert_eq. simpl. unfold set_files; simpl.
    by rewrite insert_insert_eq, app_assoc.
  - by rewrite Hf.
Qed.

Lemma written_add_output stdout more w :
  written stdout (add_output stdout more w)
    = (fun o => o ++ more) <$> written stdout w.
Proof.
  unfold written, add_output.
  destruct (files w !! stdout) as [f|] eqn:Hf; simpl.
  - by rewrite lookup_insert_eq.
  - by rewrite Hf.
Qed.

Lemma pending_add_output p stdin stdout more w :
  pending p stdin (add_output stdout more w) = pending p stdin w.
Proof.
  unfold add_output.
  destruct (files w !! stdout) as [f|] eqn:Hf; [|done].
  destruct p; [reflexivity|]. unfold pending; simpl.
  destruct (decide (stdout = stdin)) as [->|Hne].
  - by rewrite lookup_insert_eq, Hf.
  - by rewrite lookup_insert_ne.
Qed.

Lemma written_set_pending p stdin stdout evs w :
  written stdout (set_pending p stdin evs w) = written stdout w.
Proof.
  destruct p; [reflexivity|]. unfold written, set_pending.
  destruct (files w !! stdin) as [f|] eqn:Hf; [|done]. simpl.
  destruct (decide (stdin = stdout)) as [<-|Hne].
  - by rewrite lookup_insert_eq, Hf.
  - by rewrite lookup_insert_ne.
Qed.

(** The body of the loop does what [key_effect] says. *)
Lemma line_input_body_run prompt stdout c line w :
  is_Some (files w !! stdout) ->
  line_input_body prompt stdout (str1 c) line w =
    (Ret (key_effect prompt c line).1,
     add_output stdout (key_effect prompt c line).2 w).
Proof.
  intros Hout. unfold line_input_body, key_effect, is_terminator.
  rewrite (bind_run _ _ _ (Z.of_N (N_of_ascii c)) w) by reflexivity.
  pose proof (str1_terminator c) as Hterm.
  pose proof (code_backspace c) as Hbs.
  pose proof (code_escape c) as Hesc.
  destruct (decide (str1 c = str1 LF \/ str1 c = str1 CR)) as [Ht|Ht].
  { rewrite bool_decide_eq_true_2 by tauto. simpl.
    by rewrite add_output_nil. }
  rewrite bool_decide_eq_false_2 by tauto.
  destruct (decide (Z.of_N (N_of_ascii c) = 0x7f \/
                    Z.of_N (N_of_ascii c) = 0x08)) as [Hb|Hb].
  { rewrite bool_decide_eq_true_2 by tauto.
    destruct line as [|a line].
    - rewrite decide_False by (simpl; lia). simpl.
      by rewrite add_output_nil.
    - rewrite decide_True by (simpl; lia).
      unfold write.
      by rewrite (bind_run _ _ _ _ _ (emit_run _ _ _ Hout)). }
  rewrite bool_decide_eq_false_2 by tauto.
  destruct (decide (Z.of_N (N_of_ascii c) = 0x1b)) as [He|He].
  { rewrite bool_decide_eq_true_2 by tauto. simpl.
    by rewrite add_output_nil. }
  rewrite bool_decide_eq_false_2 by tauto.
  unfold write, flush.
  rewrite (bind_run _ _ _ _ _ (emit_run _ _ _ Hout)).
  rewrite (bind_run _ _ _ _ _
             (emit_run _ _ _ (add_output_file _ _ _ Hout))).
  by rewrite add_output_app.
Qed.

Lemma key_effect_terminator prompt c line :
  is_terminator c = true -> key_effect prompt c line = (Break, []).
Proof. unfold key_effect. by intros ->. Qed.

Lemma key_effect_continue prompt c line :
  is_terminator c = false ->
  exists line' out, key_effect prompt c line = (Continue line', out).
Proof.
  unfold key_effect. intros ->.
  repeat case_bool_decide; destruct line; eauto.
Qed.

Lemma key_effect_break prompt c line out :
  key_effect prompt c line = (Break, out) -> out = [].
Proof.
  unfold key_effect.
  destruct (is_terminator c); [by intros [= <-]|].
  repeat case_bool_decide; destruct line; done.
Qed.

Lemma key_effect_escape prompt line :
  key_effect prompt ESC line = (Continue line, []).
Proof. reflexivity. Qed.

Lemma key_effect_printable prompt c line :
  printable c = true ->
  key_effect prompt c line =
    (Continue (line +:+ str1 c), [Write (str1 c); Flush]).
Proof.
  unfold printable, key_effect, is_terminator. intros H.
  apply bool_decide_eq_true in H as (H1 & H2 & H3 & H4 & H5).
  rewrite !bool_decide_eq_false_2 by tauto. reflexivity.
Qed.

Lemma run_events_split p prompt evs :
  forall line r,
    run_events p prompt evs line = Some r ->
    exists pre c evs',
      evs = pre ++ Key c :: evs' /\
      Forall (fun e => quiet p e = true) pre /\
      run_events p prompt (Key c :: evs') line = Some r.
Proof.
  induction evs as [|ev evs IH]; intros line r Hrun; [done|].
  destruct ev as [c| |e].
  - exists [], c, evs. auto.
  - simpl in Hrun. destruct (IH _ _ Hrun) as (pre & c & evs' & -> & Hq & Hr).
    exists (Nothing :: pre), c, evs'.
    split; [done|split; [by constructor|done]].
  - cbn [run_events] in Hrun.
    destruct (quiet p (Raises e)) eqn:Hqe; [|done].
    destruct (IH _ _ Hrun) as (pre & c & evs' & -> & Hq & Hr).
    exists (Raises e :: pre), c, evs'.
    split; [done|split; [by constructor|done]].
Qed.

Lemma run_events_printable p prompt t cs :
  is_terminator t = true ->
  Forall (fun c => printable c = true) cs ->
  forall line,
    run_events p prompt ((Key <$> cs) ++ [Key t]) line
      = Some (line +:+ string_of_list_ascii cs, echo cs).
Proof.
  intros Ht. induction 1 as [|c cs Hc Hcs IH]; intros line.
  - simpl. rewrite (key_effect_terminator _ _ _ Ht).
    by rewrite append_empty.
  - change (run_events p prompt (Key c :: ((Key <$> cs) ++ [Key t])) line
            = Some (line +:+ String c (string_of_list_ascii cs),
                    [Write (str1 c); Flush] ++ echo cs)).
    simpl. rewrite (key_effect_printable _ _ _ Hc), IH.
    by rewrite append_str1.
Qed.

Lemma run_events_remove_esc p prompt evs :
  forall line,
    run_events p prompt (remove_esc evs) line = run_events p prompt evs line.
Proof.
  unfold remove_esc.
  induction evs as [|ev evs IH]; intros line; [done|].
  rewrite filter_cons. case_decide as Hev.
  - destruct ev as [c| |e].
    + simpl. destruct (key_effect prompt c line) as [[|line'] out]; [done|].
      by rewrite IH.
    + apply IH.
    + cbn [run_events]. destruct (quiet p (Raises e)); [apply IH|done].
  - destruct (decide (ev = Key ESC)) as [->|]; [|done].
    simpl. rewrite IH.
    by destruct (run_events p prompt evs line) as [[res out]|].
Qed.

Lemma terminated_run_events p prompt evs :
  terminated p evs = true ->
  forall line, is_Some (run_events p prompt evs line).
Proof.
  induction evs as [|ev evs IH]; intros Ht line; [done|].
  destruct ev as [c| |e].
  - simpl in *. destruct (is_terminator c) eqn:Hc.
    + rewrite (key_effect_terminator _ _ _ Hc). eauto.
    + destruct (key_effect_continue prompt c line Hc) as (line' & out & ->).
      destruct (IH Ht line') as [[res out'] ->]. eauto.
  - simpl in *. by apply IH.
  - cbn [run_events terminated andb] in *.
    destruct (quiet p (Raises e)); [by apply IH|done].
Qed.

Lemma remove_esc_length evs : (length (remove_esc evs) <= length evs)%nat.
Proof. apply length_filter. Qed.

Lemma written_is_Some stdout w :
  is_Some (written stdout w) <-> is_Some (files w !! stdout).
Proof. unfold written. apply fmap_is_Some. Qed.

Section LineInputFacts.
Context {K : termios_consts}.

Lemma written_after_mode p stdin stdout w :
  written stdout (noncanonical_mode p stdin w).2 = written stdout w.
Proof. unfold written. by rewrite files_after_mode. Qed.

Lemma line_input_loop_step p fuel prompt stdin stdout line :
  line_input_loop p (S fuel) prompt stdin stdout line =
    dbind (getch p (S fuel) stdin)
      (fun char =>
         dbind (lift (line_input_body prompt stdout char line))
           (fun ctl =>
              match ctl with
              | Break => dret line
              | Continue line' =>
                  line_input_loop p fuel prompt stdin stdout line'
              end)).
Proof. reflexivity. Qed.

(** The loop of [line_input] computes what [run_events] says, given
    more fuel than there are events. *)
Lemma line_input_loop_run p prompt stdin stdout fuel :
  forall evs rest line w res out,
    pending p stdin w = evs ++ rest ->
    run_events p prompt evs line = Some (res, out) ->
    is_Some (files w !! stdout) ->
    (length evs < fuel)%nat ->
    exists w',
      line_input_loop p fuel prompt stdin stdout line w = Some (Ret res, w') /\
      written stdout w' = (fun o => o ++ out) <$> written stdout w.
Proof.
  induction fuel as [|fuel IH]; intros evs rest line w res out
    Hpend Hrun Hout Hfuel; [lia|].
  destruct (run_events_split _ _ _ _ _ Hrun)
    as (pre & c & evs' & -> & Hq & Hrun').
  rewrite <- app_assoc in Hpend. simpl in Hpend.
  rewrite length_app in Hfuel. simpl in Hfuel.
  rewrite line_input_loop_step. unfold dbind at 1.
  rewrite (getch_run p (S fuel) stdin w pre (Key c) (evs' ++ rest) Hpend Hq)
    by first [by destruct p | lia].
  simpl delivered.
  set (w1 := set_pending p stdin (evs' ++ rest) (noncanonical_mode p stdin w).2).
  assert (Hw1 : written stdout w1 = written stdout w).
  { unfold w1. by rewrite written_set_pending, written_after_mode. }
  assert (Hout1 : is_Some (files w1 !! stdout)).
  { apply written_is_Some. rewrite Hw1. by apply written_is_Some. }
  assert (Hpend1 : pending p stdin w1 = evs' ++ rest).
  { unfold w1. destruct pre; by eapply pending_after_getch. }
  unfold dbind, lift.
  rewrite (line_input_body_run prompt stdout c line w1 Hout1).
  simpl in Hrun'.
  destruct (key_effect prompt c line) as [[|line'] out1] eqn:Hkey; simpl.
  - injection Hrun' as <- <-.
    rewrite (key_effect_break _ _ _ _ Hkey), add_output_nil.
    eexists. split; [reflexivity|].
    rewrite Hw1. destruct (written stdout w); simpl; by rewrite ?app_nil_r.
  - destruct (run_events p prompt evs' line') as [[res' out']|] eqn:Hrest;
      [|done].
    injection Hrun' as <- <-.
    destruct (IH evs' rest line' (add_output stdout out1 w1) res' out')
      as (w' & Hloop & Hw').
    + by rewrite pending_add_output.
    + done.
    + by apply add_output_file.
    + lia.
    + exists w'. split; [done|].
      rewrite Hw', written_add_output, Hw1.
      destruct (written stdout w); simpl; by rewrite ?app_assoc.
Qed.

Lemma line_input_run p prompt stdin stdout fuel evs rest w res out :
  pending p stdin w = evs ++ rest ->
  run_events p prompt evs EmptyString = Some (res, out) ->
  is_Some (files w !! stdout) ->
  (length evs < fuel)%nat ->
  exists w',
    line_input p fuel prompt stdin stdout w = Some (Ret res, w') /\
    written stdout w' = (fun o => o ++ Write prompt :: out) <$> written stdout w.
Proof.
  intros Hpend Hrun Hout Hfuel.
  unfold line_input, dbind, lift, write. rewrite (emit_run _ _ _ Hout).
  destruct (line_input_loop_run p prompt stdin stdout fuel evs rest
              EmptyString (add_output stdout [Write prompt] w) res out)
    as (w' & Hloop & Hw'); try done.
  - by rewrite pending_add_output.
  - by apply add_output_file.
  - exists w'. split; [done|].
    rewrite Hw', written_add_output.
    destruct (written stdout w); simpl; [|done].
    by rewrite <- app_assoc.
Qed.

End LineInputFacts.

Lemma list_ascii_of_append a b :
  list_ascii_of_string (a +:+ b)
    = list_ascii_of_string a ++ list_ascii_of_string b.
Proof.
  induction a as [|c a IH]; [reflexivity|].
  change (c :: list_ascii_of_string (a +:+ b)
          = c :: (list_ascii_of_string a ++ list_ascii_of_string b)).
  by rewrite IH.
Qed.

(** [' ' * n] is [n] copies of the space character. *)
Lemma list_ascii_of_spaces n :
  list_ascii_of_string (spaces n) = replicate n " "%char.
Proof. induction n as [|n IH]; simpl; [done|by rewrite IH]. Qed.

(** The characters of the string written after a backspace. *)
Lemma list_ascii_of_redraw prompt line :
  list_ascii_of_string (redraw prompt line) =
    "013"%char ::
    replicate (String.length (prompt +:+ line) + 5) " "%char ++
    "013"%char :: list_ascii_of_string prompt ++ list_ascii_of_string line.
Proof.
  unfold redraw. rewrite !list_ascii_of_append, list_ascii_of_spaces.
  reflexivity.
Qed.

Lemma printable_not_terminator c : printable c = true -> is_terminator c = false.
Proof.
  unfold printable, is_terminator. intros H.
  apply bool_decide_eq_true in H as (H1 & H2 & _).
  apply bool_decide_eq_false_2. tauto.
Qed.

Section LineInputClaims.
Context {K : termios_consts}.

(** C2. When the keys to come are printable characters [cs] followed
    by a newline or a carriage return, [line_input], given more fuel
    than there are keys, returns the string made of [cs]: the
    terminator is not in it, and no character of it is a terminator.
    What it wrote is the prompt and then each character, flushed. *)
Theorem line_input_returns_typed_line p fuel prompt stdin stdout w cs t rest :
  Forall (fun c => printable c = true) cs ->
  is_terminator t = true ->
  pending p stdin w = (Key <$> cs) ++ Key t :: rest ->
  is_Some (files w !! stdout) ->
  (S (length cs) < fuel)%nat ->
  exists w',
    line_input p fuel prompt stdin stdout w
      = Some (Ret (string_of_list_ascii cs), w') /\
    Forall (fun c => is_terminator c = false)
      (list_ascii_of_string (string_of_list_ascii cs)) /\
    written stdout w'
      = (fun o => o ++ Write prompt :: echo cs) <$> written stdout w.
Proof.
  intros Hcs Ht Hpend Hout Hfuel.
  destruct (line_input_run p prompt stdin stdout fuel
              ((Key <$> cs) ++ [Key t]) rest w
              (string_of_list_ascii cs) (echo cs))
    as (w' & Hrun & Hw').
  - by rewrite <- app_assoc.
  - by rewrite (run_events_printable p prompt t cs Ht Hcs).
  - done.
  - rewrite length_app, length_fmap. simpl. lia.
  - exists w'. split; [done|]. split; [|done].
    rewrite list_ascii_of_string_of_list_ascii.
    eapply Forall_impl; [exact Hcs|]. apply printable_not_terminator.
Qed.


(** C4. For a terminated input, [line_input] returns the same line,
    and has written the same, as for the input with the escape keys
    left out; and the body of the loop, for an escape, goes on with
    the line it had in the world it had. *)
Theorem escape_bytes_are_absorbed p fuel prompt stdin stdout
    w1 w2 evs rest1 rest2 :
  terminated p evs = true ->
  pending p stdin w1 = evs ++ rest1 ->
  pending p stdin w2 = remove_esc evs ++ rest2 ->
  is_Some (files w1 !! stdout) ->
  written stdout w2 = written stdout w1 ->
  (length evs < fuel)%nat ->
  (exists line w1' w2',
     line_input p fuel prompt stdin stdout w1 = Some (Ret line, w1') /\
     line_input p fuel prompt stdin stdout w2 = Some (Ret line, w2') /\
     written stdout w2' = written stdout w1') /\
  (forall line w,
     line_input_body prompt stdout (str1 ESC) line w
       = (Ret (Continue line), w)).
Proof.
  intros Hterm Hp1 Hp2 Hout Hw Hfuel. split; [|reflexivity].
  destruct (terminated_run_events p prompt evs Hterm EmptyString)
    as [[line out] Hrun].
  destruct (line_input_run p prompt stdin stdout fuel evs rest1 w1 line out)
    as (w1' & Hrun1 & Hw1); try done.
  destruct (line_input_run p prompt stdin stdout fuel (remove_esc evs)
              rest2 w2 line out)
    as (w2' & Hrun2 & Hw2); try done.
  - by rewrite run_events_remove_esc.
  - apply written_is_Some. rewrite Hw. by apply written_is_Some.
  - pose proof (remove_esc_length evs). lia.
  - exists line, w1', w2'. split; [done|]. split; [done|].
    by rewrite Hw1, Hw2, Hw.
Qed.

End LineInputClaims.

Lemma line_input_returns_typed_line_witness :
  exists w',
    line_input (K := linux_consts) PosixLike 5 "> " 0 1
      (at_terminal [Key "H"%char; Key "i"%char; Key LF])
      = Some (Ret "Hi", w').
Proof.
  destruct (@line_input_returns_typed_line linux_consts PosixLike 5 "> " 0 1
              (at_terminal [Key "H"%char; Key "i"%char; Key LF])
              ["H"%char; "i"%char] LF [])
    as (w' & Hrun & _).
  - repeat constructor.
  - reflexivity.
  - reflexivity.
  - eexists. reflexivity.
  - simpl. lia.
  - exists w'. exact Hrun.
Defined.


Lemma escape_bytes_are_absorbed_witness :
  exists line w1' w2',
    line_input (K := linux_consts) PosixLike 5 "" 0 1
      (at_terminal [Key "a"%char; Key ESC; Key "b"%char; Key CR])
      = Some (Ret line, w1') /\
    line_input (K := linux_consts) PosixLike 5 "" 0 1
      (at_terminal [Key "a"%char; Key "b"%char; Key CR])
      = Some (Ret line, w2') /\
    written 1 w2' = written 1 w1'.
Proof.
  apply (@escape_bytes_are_absorbed linux_consts PosixLike 5 "" 0 1
           (at_terminal [Key "a"%char; Key ESC; Key "b"%char; Key CR])
           (at_terminal [Key "a"%char; Key "b"%char; Key CR])
           [Key "a"%char; Key ESC; Key "b"%char; Key CR] [] []).
  - reflexivity.
  - reflexivity.
  - reflexivity.
  - eexists. reflexivity.
  - reflexivity.
  - simpl. lia.
Defined.

(** ** The saved state *)

Lemma keeps_saved_refl w : keeps_saved w w.
Proof. by split. Qed.

Lemma keeps_saved_trans w1 w2 w3 :
  keeps_saved w1 w2 -> keeps_saved w2 w3 -> keeps_saved w1 w3.
Proof.
  intros [Ho1 Hh1] [Ho2 Hh2]. split; [congruence|by etrans].
Qed.

Lemma deref_attr_weaken h h' l v :
  h ⊆ h' -> deref_attr h l = Some v -> deref_attr h' l = Some v.
Proof.
  intros Hsub. unfold deref_attr.
  destruct (h !! l) as [[a|?]|] eqn:Hl; [|done|done].
  destruct (h !! a_cc a) as [[?|items]|] eqn:Hcc; [done| |done].
  intros [= <-].
  rewrite (lookup_weaken _ _ _ _ Hl Hsub).
  by rewrite (lookup_weaken _ _ _ _ Hcc Hsub).
Qed.

(** With no dangling reference, the saved state is the same as long as
    [oldattr] and the objects of the heap are. *)
Lemma keeps_saved_state w w' :
  heap_closed w -> keeps_saved w w' ->
  saved_state w' = saved_state w /\ heap_closed w'.
Proof.
  intros Hclosed [Ho Hh]. split.
  - unfold saved_state. rewrite Ho.
    destruct (oldattr w) as [l|] eqn:Hl; [|done]. simpl.
    destruct (Hclosed l Hl) as [v Hv].
    by rewrite Hv, (deref_attr_weaken _ _ _ _ Hh Hv).
  - intros l Hl. rewrite Ho in Hl.
    destruct (Hclosed l Hl) as [v Hv].
    rewrite (deref_attr_weaken _ _ _ _ Hh Hv). eauto.
Qed.

Lemma read1_frame stdin w : exists fs, (read1 stdin w).2 = set_files fs w.
Proof.
  unfold read1.
  assert (Hw : w = set_files (files w) w) by by destruct w.
  destruct (files w !! stdin) as [f|]; [|by exists (files w)].
  destruct (f_input f) as [|[c| |e] evs]; [by exists (files w)|..];
    eexists; reflexivity.
Qed.

Lemma try_read_frame stdin char w :
  exists fs, (Posix.try_read stdin char w).2 = set_files fs w.
Proof.
  destruct (read1_frame stdin w) as [fs Hfs].
  exists fs. unfold Posix.try_read, try_except.
  destruct (read1 stdin w) as [[s|e] w1]; simpl in *; [done|].
  by destruct e.
Qed.

Lemma keeps_saved_files fs w1 w2 :
  keeps_saved w1 w2 -> keeps_saved w1 (set_files fs w2).
Proof. intros [Ho Hh]. by split. Qed.

Lemma keeps_saved_console evs w1 w2 :
  keeps_saved w1 w2 -> keeps_saved w1 (set_console evs w2).
Proof. intros [Ho Hh]. by split. Qed.

Lemma getch_loop_keeps_saved stdin fuel :
  forall char w0 w r w',
    keeps_saved w0 w ->
    Posix.getch_loop fuel stdin char w = Some (r, w') ->
    keeps_saved w0 w'.
Proof.
  induction fuel as [|fuel IH]; intros char w0 w r w' Hkeep; simpl.
  - case_decide; [done|]. by intros [= _ <-].
  - case_decide; [|by intros [= _ <-]].
    unfold dbind, lift.
    destruct (try_read_frame stdin char w) as [fs Hfs].
    destruct (Posix.try_read stdin char w) as [[s|e] w1]; simpl in Hfs; subst w1.
    + apply IH. by apply keeps_saved_files.
    + intros [= _ <-]. by apply keeps_saved_files.
Qed.

Lemma msvcrt_getch_keeps_saved w r w' :
  msvcrt_getch w = Some (r, w') -> keeps_saved w w'.
Proof.
  unfold msvcrt_getch.
  destruct (wait_key (console w)) as [[[c|e] evs]|]; [| |done];
    intros [= _ <-]; apply keeps_saved_console, keeps_saved_refl.
Qed.

Lemma win_getch_keeps_saved stdin w r w' :
  Win.getch stdin w = Some (r, w') -> keeps_saved w w'.
Proof.
  unfold Win.getch, dbind.
  destruct (msvcrt_getch w) as [[[c|e] w1]|] eqn:Hget; [| |done].
  - apply msvcrt_getch_keeps_saved in Hget.
    destruct c; unfold dret; by intros [= _ <-].
  - apply msvcrt_getch_keeps_saved in Hget. by intros [= _ <-].
Qed.

Section SavedStateClaims.
Context {K : termios_consts}.

Lemma noncanonical_mode_keeps_saved p stdin w :
  keeps_saved w (noncanonical_mode p stdin w).2.
Proof.
  destruct p; simpl; [apply keeps_saved_refl|].
  by destruct (noncanonical_mode_effect stdin w) as (h & k & Hsub & ->).
Qed.

Lemma restore_mode_keeps_saved p stdin w :
  keeps_saved w (restore_mode p stdin w).2.
Proof.
  destruct p; simpl; [apply keeps_saved_refl|].
  rewrite restore_mode_run. unfold restored. simpl.
  destruct (terminal_of stdin w) as [[d t]|]; [|apply keeps_saved_refl].
  destruct (oldattr w ≫= deref_attr (heap w)) as [[a items]|];
    [|apply keeps_saved_refl].
  by split.
Qed.

Lemma getch_keeps_saved p fuel stdin w r w' :
  getch p fuel stdin w = Some (r, w') -> keeps_saved w w'.
Proof.
  destruct p; simpl.
  - apply win_getch_keeps_saved.
  - unfold Posix.getch, dbind, lift.
    pose proof (noncanonical_mode_keeps_saved PosixLike stdin w) as Hnc.
    simpl in Hnc.
    destruct (Posix.noncanonical_mode stdin w) as [[[]|e] w1]; simpl in Hnc.
    + by apply getch_loop_keeps_saved.
    + by intros [= _ <-].
Qed.

Lemma getch_noblock_keeps_saved p stdin w r w' :
  getch_noblock p stdin w = Some (r, w') -> keeps_saved w w'.
Proof.
  destruct p; simpl.
  - unfold Win.getch_noblock, dbind, lift, kbhit.
    destruct (console w) as [|[c| |e] evs].
    + unfold dret. intros [= _ <-]. apply keeps_saved_refl.
    + apply win_getch_keeps_saved.
    + unfold dret. intros [= _ <-].
      apply keeps_saved_console, keeps_saved_refl.
    + intros [= _ <-]. apply keeps_saved_console, keeps_saved_refl.
  - unfold lift. intros [= Hrun].
    unfold Posix.getch_noblock, bind in Hrun.
    pose proof (noncanonical_mode_keeps_saved PosixLike stdin w) as Hnc.
    simpl in Hnc.
    destruct (Posix.noncanonical_mode stdin w) as [[[]|e] w1]; simpl in Hnc.
    + destruct (try_read_frame stdin EmptyString w1) as [fs Hfs].
      destruct (Posix.try_read stdin EmptyString w1) as [[s|e] w2];
        simpl in Hfs; subst w2.
      * case_decide; injection Hrun as _ <-; by apply keeps_saved_files.
      * injection Hrun as _ <-. by apply keeps_saved_files.
    + by injection Hrun as _ <-.
Qed.

(** [save_mode] keeps the heap without dangling reference. *)
Lemma save_mode_closed p stdin w :
  heap_closed w -> heap_closed (save_mode p stdin w).2.
Proof.
  intros Hclosed. destruct p; simpl; [done|].
  destruct (terminal_of stdin w) as [[d t]|] eqn:Hterm.
  - destruct (save_mode_tty stdin w d t Hterm)
      as (l & a & h & -> & _ & Hderef & _).
    intros l' [= <-]. simpl. rewrite Hderef. eauto.
  - by rewrite save_mode_notty.
Qed.

(** C10. In a world without dangling reference, the saved state (the
    reference in [oldattr] and the value of the list it refers to) is
    the same after [noncanonical_mode] and after [restore_mode] as
    before, and the same after every run of [getch] and of
    [getch_noblock] that ends, whether it returns or raises; none of
    them leaves a dangling reference. When [stdin] is a terminal,
    [restore_mode] with [termios] sets the settings that the saved
    list stands for. *)
Theorem only_save_mode_writes_saved_state p fuel stdin w :
  heap_closed w ->
  (saved_state (noncanonical_mode p stdin w).2 = saved_state w /\
   heap_closed (noncanonical_mode p stdin w).2) /\
  (saved_state (restore_mode p stdin w).2 = saved_state w /\
   heap_closed (restore_mode p stdin w).2) /\
  (forall r w', getch p fuel stdin w = Some (r, w') ->
                saved_state w' = saved_state w /\ heap_closed w') /\
  (forall r w', getch_noblock p stdin w = Some (r, w') ->
                saved_state w' = saved_state w /\ heap_closed w') /\
  (forall d t l a items,
     terminal_of stdin w = Some (d, t) ->
     saved_state w = Some (l, Some (a, items)) ->
     kernel (restore_mode PosixLike stdin w).2 !! d
       = Some (termios_of a items)).
Proof.
  intros Hclosed.
  split; [apply keeps_saved_state, noncanonical_mode_keeps_saved; done|].
  split; [apply keeps_saved_state, restore_mode_keeps_saved; done|].
  split.
  { intros r w' Hrun.
    eapply keeps_saved_state, getch_keeps_saved; eauto. }
  split.
  { intros r w' Hrun.
    eapply keeps_saved_state, getch_noblock_keeps_saved; eauto. }
  intros d t l a items Hterm Hsaved. simpl.
  rewrite restore_mode_run. unfold restored. rewrite Hterm.
  unfold saved_state in Hsaved.
  destruct (oldattr w) as [l'|]; [|done].
  simpl in *. injection Hsaved as -> ->. simpl.
  apply lookup_insert_eq.
Qed.

(** Saving on a terminal, going to noncanonical mode and restoring
    gives back the settings the terminal had. *)
Lemma save_noncanonical_restore stdin w d t :
  heap_closed w ->
  terminal_of stdin w = Some (d, t) ->
  let w1 := (save_mode PosixLike stdin w).2 in
  let w2 := (noncanonical_mode PosixLike stdin w1).2 in
  kernel (restore_mode PosixLike stdin w2).2 !! d = Some t.
Proof.
  intros Hclosed Hterm. simpl.
  destruct (save_mode_tty stdin w d t Hterm)
    as (l & a & h & Hsave & Hsub & Hderef & Ht).
  rewrite Hsave. simpl.
  set (w1 := set_oldattr (Some l) (set_heap h w)).
  assert (Hsaved1 : saved_state w1 = Some (l, Some (a, cc_items t))).
  { unfold saved_state. simpl. by rewrite Hderef. }
  assert (Hclosed1 : heap_closed w1).
  { intros l' [= <-]. simpl. rewrite Hderef. eauto. }
  assert (Hterm1 : terminal_of stdin w1 = Some (d, t)) by exact Hterm.
  pose proof (noncanonical_mode_keeps_saved PosixLike stdin w1) as Hkeep.
  apply (keeps_saved_state _ _ Hclosed1) in Hkeep as [Hsaved2 Hclosed2].
  simpl in Hsaved2, Hclosed2.
  destruct (noncanonical_mode_tty stdin w1 d t Hterm1) as (h2 & _ & Hnc).
  rewrite Hnc in *. simpl in *.
  set (w2 := if decide (VMIN < length (c_cc t) /\ VTIME < length (c_cc t))%nat
             then _ else _) in *.
  assert (exists t2, terminal_of stdin w2 = Some (d, t2)) as [t2 Hterm2].
  { destruct (terminal_of_Some _ _ _ _ Hterm) as (f & Hf & Hd & Hk).
    unfold w2, terminal_of. case_decide; simpl; rewrite Hf, Hd.
    - rewrite lookup_insert_eq. eauto.
    - rewrite Hk. eauto. }
  rewrite restore_mode_run. unfold restored. rewrite Hterm2.
  rewrite Hsaved1 in Hsaved2. unfold saved_state in Hsaved2.
  destruct (oldattr w2) as [l2|]; [|done].
  simpl in *. injection Hsaved2 as -> ->. simpl.
  rewrite lookup_insert_eq. by rewrite Ht.
Qed.

End SavedStateClaims.

(** On Linux, [save_mode] at the terminal gives [after_save]. *)
Lemma save_mode_at_terminal evs :
  save_mode (K := linux_consts) PosixLike 0 (at_terminal evs)
    = (Ret tt, after_save evs).
Proof. vm_compute. reflexivity. Qed.

Lemma only_save_mode_writes_saved_state_witness :
  heap_closed (after_save [Key "a"%char]) /\
  saved_state
    (noncanonical_mode (K := linux_consts) PosixLike 0
       (after_save [Key "a"%char])).2
  = saved_state (after_save [Key "a"%char]).
Proof.
  assert (Hclosed : heap_closed (after_save [Key "a"%char])).
  { intros l [= <-]. vm_compute. eauto. }
  split; [exact Hclosed|].
  apply (@only_save_mode_writes_saved_state linux_consts PosixLike 1 0
           (after_save [Key "a"%char]) Hclosed).
Defined.

(** ** The functions at work *)

(** The variant by platform name; ["darwin"] does not start with
    ["win"]. *)
Lemma platform_of_names :
  platform_of "win32" = Windows /\
  platform_of "linux" = PosixLike /\
  platform_of "darwin" = PosixLike /\
  platform_of "wi" = PosixLike.
Proof. repeat split. Qed.

(** Prompt ["> "], keys [H], [i], DEL, [i], [!], newline: the line is
    ["Hi!"]; the output is the prompt, the echo of [H] and [i], the
    redraw after DEL, then the echo of [i] and [!], and no newline. *)
Lemma line_input_scenario p :
  exists w',
    line_input (K := linux_consts) p 7 "> " 0 1
      (at_terminal [Key "H"%char; Key "i"%char; Key DEL; Key "i"%char;
                    Key "!"%char; Key LF])
      = Some (Ret "Hi!", w') /\
    written 1 w' =
      Some [Write "> "; Write "H"; Flush; Write "i"; Flush;
            Write (redraw "> " "H"); Write "i"; Flush; Write "!"; Flush].
Proof.
  destruct (line_input_run (K := linux_consts) p "> " 0%nat 1%nat 7
              [Key "H"%char; Key "i"%char; Key DEL; Key "i"%char;
               Key "!"%char; Key LF] []
              (at_terminal [Key "H"%char; Key "i"%char; Key DEL; Key "i"%char;
                            Key "!"%char; Key LF])
              "Hi!"
              [Write "H"; Flush; Write "i"; Flush;
               Write (redraw "> " "H"); Write "i"; Flush; Write "!"; Flush])
    as (w' & Hrun & Hw').
  - by destruct p.
  - by destruct p.
  - eexists. reflexivity.
  - simpl. lia.
  - exists w'. split; [exact Hrun|]. rewrite Hw'. reflexivity.
Qed.

(** With input redirected, saving, switching and restoring change
    nothing, and [getch] gives the characters of the stream. *)
Lemma redirected_scenario :
  exists w',
    getch (K := linux_consts) PosixLike 1 0
      (restore_mode (K := linux_consts) PosixLike 0
         (noncanonical_mode (K := linux_consts) PosixLike 0
            (save_mode (K := linux_consts) PosixLike 0
               (redirected [Key "x"%char; Key "y"%char])).2).2).2
      = Some (Ret "x", w') /\
    pending PosixLike 0 w' = [Key "y"%char].
Proof. eexists. split; vm_compute; reflexivity. Qed.

(** * Further properties *)

(** ** Saving, switching and restoring *)

Lemma restored_kernel stdin w d t a items :
  terminal_of stdin w = Some (d, t) ->
  oldattr w ≫= deref_attr (heap w) = Some (a, items) ->
  kernel (restored stdin w) = <[d := termios_of a items]> (kernel w).
Proof. intros Hterm Hsaved. unfold restored. by rewrite Hterm, Hsaved. Qed.

Section MoreModes.
Context {K : termios_consts}.

(** X1. On a terminal [save_mode] returns and stores in [oldattr] a
    list that was not in the heap before and that stands for the
    settings the terminal has; it changes no setting, no file object
    and no object of the heap. *)
Theorem save_mode_snapshots_live_settings stdin w d t :
  terminal_of stdin w = Some (d, t) ->
  exists w' l a items,
    save_mode PosixLike stdin w = (Ret tt, w') /\
    saved_state w' = Some (l, Some (a, items)) /\
    termios_of a items = t /\
    heap w !! l = None /\
    heap w ⊆ heap w' /\
    kernel w' = kernel w /\
    files w' = files w.
Proof.
  intros Hterm.
  destruct (terminal_of_Some _ _ _ _ Hterm) as (f & Hf & Hd & Hk).
  destruct (tcgetattr_tty d t w Hk)
    as (l & a & h & Hrun & Hl & Hcc & _ & Hnew & _ & Hsub & Ha).
  exists (set_oldattr (Some l) (set_heap h w)), l, a, (cc_items t).
  split.
  { simpl. unfold Posix.save_mode. apply try_run.
    rewrite (bind_run _ _ _ d w) by (rewrite (fileno_run _ _ _ Hf); by rewrite Hd).
    by rewrite (bind_run _ _ _ _ _ Hrun). }
  split.
  { unfold saved_state, deref_attr. simpl. by rewrite Hl, Hcc. }
  split; [rewrite Ha; apply termios_of_tcgetattr|].
  by repeat split.
Qed.

(** X2. On a terminal, [save_mode] then [restore_mode] leaves the
    settings of every descriptor as they were, and so does [save_mode],
    [noncanonical_mode], [restore_mode]: restoring undoes the switch to
    noncanonical mode. *)
Theorem save_restore_round_trip stdin w d t :
  terminal_of stdin w = Some (d, t) ->
  let w1 := (save_mode PosixLike stdin w).2 in
  let w2 := (noncanonical_mode PosixLike stdin w1).2 in
  kernel (restore_mode PosixLike stdin w1).2 = kernel w /\
  kernel (restore_mode PosixLike stdin w2).2 = kernel w.
Proof.
  intros Hterm. simpl.
  destruct (save_mode_tty stdin w d t Hterm)
    as (l & a & h & Hsave & Hsub & Hderef & Ht).
  rewrite Hsave. cbn [snd].
  set (w1 := set_oldattr (Some l) (set_heap h w)).
  assert (Hterm1 : terminal_of stdin w1 = Some (d, t)) by exact Hterm.
  assert (Hk : kernel w !! d = Some t).
  { by destruct (terminal_of_Some _ _ _ _ Hterm) as (f & _ & _ & ?). }
  assert (Hsaved1 : oldattr w1 ≫= deref_attr (heap w1) = Some (a, cc_items t))
    by exact Hderef.
  split.
  - rewrite restore_mode_run. cbn [snd].
    rewrite (restored_kernel stdin w1 d t a _ Hterm1 Hsaved1), Ht.
    by apply insert_id.
  - destruct (noncanonical_mode_tty stdin w1 d t Hterm1) as (h2 & Hsub2 & Hnc).
    rewrite Hnc. cbn [snd].
    set (w2 := if decide (VMIN < length (c_cc t) /\ VTIME < length (c_cc t))%nat
               then _ else _).
    assert (Hsaved2 : oldattr w2 ≫= deref_attr (heap w2)
                      = Some (a, cc_items t)).
    { unfold w2. case_decide; simpl;
        by apply (deref_attr_weaken h h2). }
    destruct (terminal_of_Some _ _ _ _ Hterm) as (f & Hf & Hd & _).
    rewrite restore_mode_run. cbn [snd].
    unfold w2 in *. case_decide.
    + erewrite restored_kernel; [|unfold terminal_of; simpl; rewrite Hf, Hd,
                                   lookup_insert_eq; reflexivity|exact Hsaved2].
      simpl. rewrite insert_insert_eq, Ht. by apply insert_id.
    + erewrite restored_kernel; [|exact Hterm|exact Hsaved2].
      simpl. rewrite Ht. by apply insert_id.
Qed.

(** X3. One saved state only: on a terminal whose [cc] list has the
    MIN and TIME slots, after [save_mode], [noncanonical_mode] and
    [save_mode] again, [restore_mode] sets the noncanonical settings;
    the settings saved first are gone. *)
Theorem second_save_mode_overwrites stdin w d t :
  terminal_of stdin w = Some (d, t) ->
  (VMIN < length (c_cc t))%nat ->
  (VTIME < length (c_cc t))%nat ->
  let w1 := (save_mode PosixLike stdin w).2 in
  let w2 := (noncanonical_mode PosixLike stdin w1).2 in
  let w3 := (save_mode PosixLike stdin w2).2 in
  kernel (restore_mode PosixLike stdin w3).2 !! d = Some (noncanonical_of t).
Proof.
  intros Hterm Hmin Htime. simpl.
  destruct (save_mode_tty stdin w d t Hterm)
    as (l & a & h & Hsave & _ & _ & _).
  rewrite Hsave. cbn [snd].
  set (w1 := set_oldattr (Some l) (set_heap h w)).
  assert (Hterm1 : terminal_of stdin w1 = Some (d, t)) by exact Hterm.
  destruct (noncanonical_mode_tty stdin w1 d t Hterm1) as (h2 & _ & Hnc).
  rewrite decide_True in Hnc by done. rewrite Hnc. cbn [snd].
  set (w2 := set_kernel _ _).
  destruct (terminal_of_Some _ _ _ _ Hterm) as (f & Hf & Hd & _).
  assert (Hterm2 : terminal_of stdin w2 = Some (d, noncanonical_of t)).
  { unfold terminal_of, w2. simpl. by rewrite Hf, Hd, lookup_insert_eq. }
  destruct (save_mode_tty stdin w2 d _ Hterm2)
    as (l3 & a3 & h3 & Hsave3 & _ & Hderef3 & Ht3).
  rewrite Hsave3. cbn [snd].
  set (w3 := set_oldattr (Some l3) (set_heap h3 w2)).
  rewrite restore_mode_run. cbn [snd].
  rewrite (restored_kernel stdin w3 d (noncanonical_of t) a3
             (cc_items (noncanonical_of t))); [|exact Hterm2|exact Hderef3].
  by rewrite Ht3, lookup_insert_eq.
Qed.

End MoreModes.

Lemma save_mode_snapshots_live_settings_witness :
  exists w' l a items,
    save_mode (K := linux_consts) PosixLike 0 (at_terminal [])
      = (Ret tt, w') /\
    saved_state w' = Some (l, Some (a, items)) /\
    termios_of a items = cooked.
Proof.
  destruct (@save_mode_snapshots_live_settings linux_consts 0
              (at_terminal []) 0 cooked eq_refl)
    as (w' & l & a & items & H1 & H2 & H3 & _).
  exists w', l, a, items. auto.
Defined.

Lemma save_restore_round_trip_witness :
  kernel (restore_mode (K := linux_consts) PosixLike 0
            (noncanonical_mode (K := linux_consts) PosixLike 0
               (save_mode (K := linux_consts) PosixLike 0
                  (at_terminal [])).2).2).2
  = kernel (at_terminal []).
Proof.
  apply (@save_restore_round_trip linux_consts 0 (at_terminal []) 0 cooked).
  reflexivity.
Defined.

Lemma second_save_mode_overwrites_witness :
  kernel (restore_mode (K := linux_consts) PosixLike 0
            (save_mode (K := linux_consts) PosixLike 0
               (noncanonical_mode (K := linux_consts) PosixLike 0
                  (save_mode (K := linux_consts) PosixLike 0
                     (at_terminal [])).2).2).2).2 !! 0
  = Some (noncanonical_of (K := linux_consts) cooked).
Proof.
  apply (@second_save_mode_overwrites linux_consts 0 (at_terminal []) 0 cooked).
  - reflexivity.
  - vm_compute. lia.
  - vm_compute. lia.
Defined.

(** ** More on reading one character *)

Lemma getch_loop_no_file stdin fuel :
  forall w, files w !! stdin = None ->
  Posix.getch_loop fuel stdin EmptyString w = None.
Proof.
  induction fuel as [|fuel IH]; intros w Hf; [reflexivity|].
  rewrite getch_loop_step. unfold dbind, lift.
  unfold Posix.try_read, try_except, read1. rewrite Hf. simpl.
  by apply IH.
Qed.

(** The loop of [getch] does not end while the events are quiet: at the
    end of the input, or when the fuel is used up before a key. *)
Lemma getch_loop_starved stdin pre :
  forall fuel w f rest,
    files w !! stdin = Some f ->
    f_input f = pre ++ rest ->
    Forall (fun e => quiet PosixLike e = true) pre ->
    rest = [] \/ (fuel <= length pre)%nat ->
    Posix.getch_loop fuel stdin EmptyString w = None.
Proof.
  induction pre as [|ev pre IH]; intros fuel w f rest Hf Hin Hq Hend.
  - destruct Hend as [->|Hfuel].
    + by apply (getch_loop_eof stdin fuel w f).
    + destruct fuel; [reflexivity|simpl in Hfuel; lia].
  - destruct fuel as [|fuel]; [reflexivity|].
    apply Forall_cons in Hq as [Hq0 Hq].
    rewrite getch_loop_step. unfold dbind, lift.
    rewrite (try_read_run _ _ _ _ _ _ Hf Hin).
    assert (Hnext : Posix.getch_loop fuel stdin EmptyString
                      (set_pending PosixLike stdin (pre ++ rest) w) = None).
    { apply (IH fuel _ {| f_fileno := f_fileno f; f_input := pre ++ rest;
                          f_output := f_output f |} rest).
      - unfold set_pending. rewrite Hf. simpl. apply lookup_insert_eq.
      - reflexivity.
      - done.
      - destruct Hend as [?|Hfuel]; [by left|right]. simpl in Hfuel. lia. }
    destruct ev as [c| |e]; [done|done|].
    by rewrite decide_False by by apply quiet_posix_raises.
Qed.

Lemma wait_key_idle pre :
  Forall (fun e => quiet Windows e = true) pre -> wait_key pre = None.
Proof.
  induction 1 as [|ev pre Hev _ IH]; [done|].
  apply quiet_windows in Hev as ->. exact IH.
Qed.

Lemma try_read_nothing stdin w :
  pending PosixLike stdin w = [] ->
  Posix.try_read stdin EmptyString w = (Ret EmptyString, w).
Proof.
  unfold pending, Posix.try_read, try_except, read1.
  destruct (files w !! stdin) as [f|]; [|done].
  by intros ->.
Qed.

Lemma read1_same_terminals stdin w : same_terminals w (read1 stdin w).2.
Proof.
  unfold read1. destruct (files w !! stdin) as [f|] eqn:Hf; [|by split].
  destruct (f_input f) as [|ev evs]; [by split|].
  assert (same_terminals w
            (set_files (<[stdin := {| f_fileno := f_fileno f; f_input := evs;
                                      f_output := f_output f |}]> (files w)) w)).
  { split; [done|]. intros h. simpl.
    destruct (decide (stdin = h)) as [<-|Hne].
    - by rewrite lookup_insert_eq, Hf.
    - by rewrite lookup_insert_ne. }
  by destruct ev.
Qed.

Lemma try_read_same_terminals stdin char w :
  same_terminals w (Posix.try_read stdin char w).2.
Proof.
  pose proof (read1_same_terminals stdin w) as H.
  unfold Posix.try_read, try_except.
  destruct (read1 stdin w) as [[s|e] w1]; [done|]. by destruct e.
Qed.

Lemma same_terminals_refl w : same_terminals w w.
Proof. by split. Qed.

Lemma same_terminals_trans w1 w2 w3 :
  same_terminals w1 w2 -> same_terminals w2 w3 -> same_terminals w1 w3.
Proof.
  intros [Hk1 Hf1] [Hk2 Hf2]. split; [congruence|].
  intros h. by rewrite Hf2, Hf1.
Qed.


Lemma same_terminals_file h w w' :
  same_terminals w w' -> is_Some (files w !! h) -> is_Some (files w' !! h).
Proof.
  intros [_ Hf] [f Hh]. specialize (Hf h). rewrite Hh in Hf.
  destruct (files w' !! h); [eauto|done].
Qed.

Lemma try_read_raises stdin char w e w' :
  Posix.try_read stdin char w = (Raise e, w') -> e = KeyboardInterrupt.
Proof.
  unfold Posix.try_read, try_except.
  destruct (read1 stdin w) as [[s|e0] w1]; [done|].
  destruct e0; simpl; by intros [= <- _].
Qed.

Lemma getch_loop_same_terminals stdin fuel :
  forall char w r w',
    Posix.getch_loop fuel stdin char w = Some (r, w') ->
    same_terminals w w' /\
    (forall e, r = Raise e -> e = KeyboardInterrupt).
Proof.
  induction fuel as [|fuel IH]; intros char w r w'; simpl.
  - case_decide; [done|]. intros [= <- <-].
    split; [apply same_terminals_refl|done].
  - case_decide.
    2:{ intros [= <- <-]. split; [apply same_terminals_refl|done]. }
    unfold dbind, lift.
    pose proof (try_read_same_terminals stdin char w) as Hsame.
    destruct (Posix.try_read stdin char w) as [[s|e] w1] eqn:Hread;
      simpl in Hsame.
    + intros Hloop. apply IH in Hloop as [Hsame' Hraise].
      split; [by eapply same_terminals_trans|done].
    + intros [= <- <-]. split; [done|].
      intros e' [= <-]. by eapply try_read_raises.
Qed.

Section MoreReading.
Context {K : termios_consts}.

Lemma getch_noblock_idle p stdin w :
  pending p stdin w = [] ->
  getch_noblock p stdin w
    = Some (Ret EmptyString, (noncanonical_mode p stdin w).2).
Proof.
  intros Hpend. destruct p.
  - simpl in *. unfold Win.getch_noblock, dbind, lift, kbhit.
    by rewrite Hpend.
  - change (Some (Posix.getch_noblock stdin w) =
              Some (Ret EmptyString, (Posix.noncanonical_mode stdin w).2)).
    f_equal. unfold Posix.getch_noblock.
    destruct (noncanonical_mode_effect stdin w) as (h & k & _ & Hnc).
    rewrite (bind_run _ _ _ _ _ Hnc), Hnc. cbn [snd].
    by rewrite (bind_run _ _ _ _ _
                  (try_read_nothing stdin (set_kernel k (set_heap h w)) Hpend)).
Qed.

Lemma getch_quiet_none p fuel stdin w :
  Forall (fun e => quiet p e = true) (pending p stdin w) ->
  getch p fuel stdin w = None.
Proof.
  intros Hq. destruct p.
  - simpl in *. unfold Win.getch, dbind, msvcrt_getch.
    by rewrite (wait_key_idle _ Hq).
  - change (Posix.getch fuel stdin w = None).
    unfold Posix.getch, dbind, lift.
    destruct (noncanonical_mode_effect stdin w) as (h & k & _ & ->).
    unfold pending in Hq.
    destruct (files w !! stdin) as [f|] eqn:Hf.
    + apply (getch_loop_starved stdin (f_input f) fuel _ f []); auto.
      by rewrite app_nil_r.
    + by apply getch_loop_no_file.
Qed.

(** With [termios], [getch] does not end either when the fuel is used
    up on quiet events. *)
Lemma getch_out_of_fuel fuel stdin w pre rest :
  pending PosixLike stdin w = pre ++ rest ->
  Forall (fun e => quiet PosixLike e = true) pre ->
  (fuel <= length pre)%nat ->
  getch PosixLike fuel stdin w = None.
Proof.
  intros Hpend Hq Hfuel.
  change (Posix.getch fuel stdin w = None).
  unfold Posix.getch, dbind, lift.
  destruct (noncanonical_mode_effect stdin w) as (h & k & _ & ->).
  unfold pending in Hpend.
  destruct (files w !! stdin) as [f|] eqn:Hf.
  - apply (getch_loop_starved stdin pre fuel _ f rest); auto.
  - by apply getch_loop_no_file.
Qed.

(** X4. While the events to come are all quiet (reads that give
    nothing, swallowed errors, an idle console), and at the end of the
    input, [getch] does not return, whatever the fuel. *)
Theorem getch_never_returns_without_key p fuel stdin w :
  Forall (fun e => quiet p e = true) (pending p stdin w) ->
  getch p fuel stdin w = None.
Proof.
  intros Hq. destruct p.
  - simpl in *. unfold Win.getch, dbind, msvcrt_getch.
    by rewrite (wait_key_idle _ Hq).
  - change (Posix.getch fuel stdin w = None).
    unfold Posix.getch, dbind, lift.
    destruct (noncanonical_mode_effect stdin w) as (h & k & _ & ->).
    unfold pending in Hq.
    destruct (files w !! stdin) as [f|] eqn:Hf.
    + apply (getch_loop_starved stdin (f_input f) fuel _ f []); auto.
      by rewrite app_nil_r.
    + by apply getch_loop_no_file.
Qed.

(** X5. On Windows [getch_noblock] never waits, although it calls the
    [getch] that waits for a key: [getch] is reached only when
    [msvcrt.kbhit()] has seen a key, and then returns that key. In
    every world the call ends, whatever the console does afterwards,
    and it takes one event from the console when there is one and none
    otherwise. *)
Theorem getch_noblock_windows_never_waits stdin w :
  exists r w',
    getch_noblock Windows stdin w = Some (r, w') /\
    console w' = drop 1 (console w) /\
    (forall c rest, console w = Key c :: rest -> r = Ret (str1 c)) /\
    (forall rest, console w = Nothing :: rest -> r = Ret EmptyString) /\
    (console w = [] -> r = Ret EmptyString).
Proof.
  simpl. unfold Win.getch_noblock, dbind, lift, kbhit.
  destruct (console w) as [|[c| |e] rest] eqn:Hcon.
  - exists (Ret EmptyString), w. by rewrite Hcon.
  - unfold Win.getch, dbind, msvcrt_getch. rewrite Hcon. simpl.
    unfold dret. rewrite decode_latin1_key.
    exists (Ret (str1 c)), (set_console rest w).
    split; [done|]. split; [done|]. split; [|done].
    by intros c' rest' [= <- _].
  - exists (Ret EmptyString), (set_console rest w). by repeat split.
  - exists (Raise e), (set_console rest w). by repeat split.
Qed.

(** X6. With nothing to read, [getch_noblock] returns the empty
    string: when no event is left, and when the event its read meets is
    a quiet one (no character in time, an idle console, with [termios]
    an exception other than [KeyboardInterrupt]). *)
Theorem getch_noblock_empty_without_input p stdin w :
  pending p stdin w = [] \/
  (exists ev rest, pending p stdin w = ev :: rest /\ quiet p ev = true) ->
  exists w', getch_noblock p stdin w = Some (Ret EmptyString, w').
Proof.
  intros [Hpend|(ev & rest & Hpend & Hq)].
  - eexists. by apply getch_noblock_idle.
  - eexists. rewrite (getch_noblock_run p stdin w ev rest Hpend).
    destruct ev as [c| |e]; [by destruct p|done|]. simpl in *.
    by rewrite Hq.
Qed.

(** X7. With [termios], [getch_noblock] returns the empty string or
    one character, never a newline, and raises nothing but
    [KeyboardInterrupt]. *)
Theorem getch_noblock_posix_results stdin w r w' :
  getch_noblock PosixLike stdin w = Some (r, w') ->
  match r with
  | Ret s => s = EmptyString \/ exists c, s = str1 c /\ c <> LF
  | Raise e => e = KeyboardInterrupt
  end.
Proof.
  destruct (pending PosixLike stdin w) as [|ev rest] eqn:Hpend.
  - rewrite (getch_noblock_idle PosixLike stdin w Hpend).
    intros [= <- _]. by left.
  - rewrite (getch_noblock_run PosixLike stdin w ev rest Hpend).
    intros [= <- _]. destruct ev as [c| |e]; simpl.
    + right. case_decide as Hc.
      * exists CR. by split.
      * by exists c.
    + by left.
    + case_bool_decide as He; [by left|].
      destruct (decide (e = KeyboardInterrupt)); tauto.
Qed.

(** X8. A character other than a newline comes back from
    [getch_noblock] as it is, a carriage return included; on Windows
    every character does. The character is consumed. *)
Theorem getch_noblock_passes_characters p stdin w c rest :
  pending p stdin w = Key c :: rest ->
  (p = PosixLike -> c <> LF) ->
  exists w',
    getch_noblock p stdin w = Some (Ret (str1 c), w') /\
    pending p stdin w' = rest.
Proof.
  intros Hpend Hc. eexists. split.
  - rewrite (getch_noblock_run p stdin w _ _ Hpend). destruct p; [done|].
    simpl. by rewrite decide_False by by apply Hc.
  - by eapply pending_after_getch.
Qed.

(** What [noncanonical_mode] does to the world, by [switched]. *)
Lemma noncanonical_mode_switched stdin w :
  exists h,
    Posix.noncanonical_mode stdin w
      = (Ret tt, set_kernel (switched stdin w) (set_heap h w)).
Proof.
  unfold switched.
  destruct (terminal_of stdin w) as [[d t]|] eqn:Hterm.
  - destruct (noncanonical_mode_tty stdin w d t Hterm) as (h & _ & ->).
    exists h. by case_decide.
  - exists (heap w). rewrite noncanonical_mode_notty by done.
    by rewrite world_eta.
Qed.


Lemma getch_posix_switched fuel stdin w r w1 :
  getch PosixLike fuel stdin w = Some (r, w1) ->
  kernel w1 = switched stdin w /\
  (forall h, f_fileno <$> files w1 !! h = f_fileno <$> files w !! h) /\
  (forall e, r = Raise e -> e = KeyboardInterrupt).
Proof.
  simpl. unfold Posix.getch, dbind, lift.
  destruct (noncanonical_mode_switched stdin w) as [h ->].
  intros Hloop.
  apply getch_loop_same_terminals in Hloop as [[Hk Hf] Hraise].
  by repeat split.
Qed.

Lemma getch_noblock_posix_switched stdin w r w1 :
  getch_noblock PosixLike stdin w = Some (r, w1) ->
  kernel w1 = switched stdin w /\
  (forall h, f_fileno <$> files w1 !! h = f_fileno <$> files w !! h).
Proof.
  simpl. unfold lift. intros [= Hrun]. unfold Posix.getch_noblock in Hrun.
  destruct (noncanonical_mode_switched stdin w) as [h Hnc].
  rewrite (bind_run _ _ _ _ _ Hnc) in Hrun. unfold bind in Hrun.
  pose proof (try_read_same_terminals stdin EmptyString
                (set_kernel (switched stdin w) (set_heap h w))) as [Hk Hf].
  destruct (Posix.try_read stdin EmptyString
              (set_kernel (switched stdin w) (set_heap h w)))
    as [[s|e] w2]; simpl in Hk, Hf.
  - assert (w1 = w2) as -> by (case_decide; by injection Hrun as _ <-).
    by split.
  - injection Hrun as _ <-. by split.
Qed.

(** X9. With [termios], [getch] and [getch_noblock] never set the
    terminal back, and their reads change no setting: after every run
    that ends, returning or raising, the settings of all descriptors
    are what the switch at the start of the call made them. When
    [stdin.fileno()] returned the descriptor of a terminal whose [cc]
    list has the MIN and TIME slots, these are the noncanonical
    settings for that terminal; when [fileno()] raised, were it
    [KeyboardInterrupt], or the descriptor is no terminal, the switch
    was dropped silently and all settings are as before the call, the
    terminal still canonical if it was, while the call went on to read.
    A run of [getch] that raises raises [KeyboardInterrupt]. *)
Theorem getch_leaves_noncanonical fuel stdin w :
  (forall r w',
     getch PosixLike fuel stdin w = Some (r, w') ->
     kernel w' =
       match terminal_of stdin w with
       | Some (d, t) =>
           if decide (VMIN < length (c_cc t) /\ VTIME < length (c_cc t))%nat
           then <[d := noncanonical_of t]> (kernel w)
           else kernel w
       | None => kernel w
       end /\
     (forall e, r = Raise e -> e = KeyboardInterrupt)) /\
  (forall r w',
     getch_noblock PosixLike stdin w = Some (r, w') ->
     kernel w' =
       match terminal_of stdin w with
       | Some (d, t) =>
           if decide (VMIN < length (c_cc t) /\ VTIME < length (c_cc t))%nat
           then <[d := noncanonical_of t]> (kernel w)
           else kernel w
       | None => kernel w
       end).
Proof.
  split.
  - intros r w' Hrun.
    by destruct (getch_posix_switched fuel stdin w r w' Hrun) as (Hk & _ & He).
  - intros r w' Hrun.
    by destruct (getch_noblock_posix_switched stdin w r w' Hrun) as (Hk & _).
Qed.

(** X10. The variants differ on an exception of the read that is not
    [KeyboardInterrupt]: with [termios], [getch] drops it and reads
    again; on Windows, [getch] raises it to its caller. *)
Theorem getch_read_error_by_variant fuel stdin w e c rest :
  e <> KeyboardInterrupt ->
  (1 < fuel)%nat ->
  pending PosixLike stdin w = Raises e :: Key c :: rest ->
  pending Windows stdin w = Raises e :: Key c :: rest ->
  (exists w', getch PosixLike fuel stdin w = Some (Ret (str1 c), w') /\
              pending PosixLike stdin w' = rest) /\
  (exists w', getch Windows fuel stdin w = Some (Raise e, w') /\
              pending Windows stdin w' = Key c :: rest).
Proof.
  intros He Hfuel Hpend Hpendw. split.
  - eexists. split.
    + apply (getch_run PosixLike fuel stdin w [Raises e] (Key c) rest).
      * done.
      * constructor; [|done]. simpl. by apply bool_decide_eq_true_2.
      * done.
      * simpl. lia.
    + by eapply pending_after_getch.
  - eexists. split.
    + apply (getch_run Windows fuel stdin w [] (Raises e) (Key c :: rest)).
      * done.
      * done.
      * done.
      * simpl. lia.
    + done.
Qed.

End MoreReading.

Lemma getch_never_returns_without_key_witness :
  getch (K := linux_consts) PosixLike 10 0
    (redirected [Nothing; Raises OSError]) = None.
Proof.
  apply (@getch_never_returns_without_key linux_consts PosixLike 10 0
           (redirected [Nothing; Raises OSError])).
  change (Forall (fun e => quiet PosixLike e = true) [Nothing; Raises OSError]).
  repeat constructor.
Defined.

Lemma getch_noblock_empty_without_input_witness :
  exists w',
    getch_noblock (K := linux_consts) PosixLike 0
      (redirected [Raises OSError; Key "a"%char])
    = Some (Ret EmptyString, w').
Proof.
  apply (@getch_noblock_empty_without_input linux_consts PosixLike 0
           (redirected [Raises OSError; Key "a"%char])).
  right. exists (Raises OSError), [Key "a"%char]. split; reflexivity.
Defined.

Lemma getch_noblock_posix_results_witness :
  str1 CR = EmptyString \/ exists c, str1 CR = str1 c /\ c <> LF.
Proof.
  apply (@getch_noblock_posix_results linux_consts 0
           (at_terminal [Key LF]) (Ret (str1 CR))
           (set_pending PosixLike 0 []
              (noncanonical_mode (K := linux_consts) PosixLike 0
                 (at_terminal [Key LF])).2)).
  vm_compute. reflexivity.
Defined.

Lemma getch_noblock_passes_characters_witness :
  exists w',
    getch_noblock (K := linux_consts) PosixLike 0 (at_terminal [Key CR])
      = Some (Ret (str1 CR), w') /\
    pending PosixLike 0 w' = [].
Proof.
  apply (@getch_noblock_passes_characters linux_consts PosixLike 0
           (at_terminal [Key CR]) CR []).
  - reflexivity.
  - intros _. discriminate.
Defined.

Lemma getch_leaves_noncanonical_witness :
  (exists w',
     getch (K := linux_consts) PosixLike 2 0 (at_terminal [Key "a"%char])
       = Some (Ret (str1 "a"%char), w') /\
     kernel w' = <[0 := noncanonical_of (K := linux_consts) cooked]>
                   (kernel (at_terminal [Key "a"%char]))) /\
  (exists w',
     getch (K := linux_consts) PosixLike 2 0
       (fileno_interrupted [Key "a"%char])
       = Some (Ret (str1 "a"%char), w') /\
     kernel w' = kernel (fileno_interrupted [Key "a"%char])).
Proof.
  split.
  - pose proof (getch_run (K := linux_consts) PosixLike 2 0
                  (at_terminal [Key "a"%char]) [] (Key "a"%char) []
                  eq_refl (Forall_nil_2 _) eq_refl (Nat.lt_0_succ 1)) as Hrun.
    eexists. split; [exact Hrun|].
    exact (proj1 (proj1 (@getch_leaves_noncanonical linux_consts 2 0
                           (at_terminal [Key "a"%char])) _ _ Hrun)).
  - pose proof (getch_run (K := linux_consts) PosixLike 2 0
                  (fileno_interrupted [Key "a"%char]) [] (Key "a"%char) []
                  eq_refl (Forall_nil_2 _) eq_refl (Nat.lt_0_succ 1)) as Hrun.
    eexists. split; [exact Hrun|].
    exact (proj1 (proj1 (@getch_leaves_noncanonical linux_consts 2 0
                           (fileno_interrupted [Key "a"%char])) _ _ Hrun)).
Defined.

Lemma getch_read_error_by_variant_witness :
  (exists w',
     getch (K := linux_consts) PosixLike 2 0
       (at_terminal [Raises OSError; Key "a"%char])
     = Some (Ret (str1 "a"%char), w') /\
     pending PosixLike 0 w' = []) /\
  (exists w',
     getch (K := linux_consts) Windows 2 0
       (at_terminal [Raises OSError; Key "a"%char])
     = Some (Raise OSError, w') /\
     pending Windows 0 w' = [Key "a"%char]).
Proof.
  apply (@getch_read_error_by_variant linux_consts 2 0
           (at_terminal [Raises OSError; Key "a"%char]) OSError "a"%char []).
  - discriminate.
  - lia.
  - reflexivity.
  - reflexivity.
Defined.

(** ** More on the line editor *)

Lemma append_length a b :
  String.length (a +:+ b) = (String.length a + String.length b)%nat.
Proof.
  induction a as [|c a IH]; [reflexivity|].
  change (S (String.length (a +:+ b))
          = S (String.length a + String.length b)).
  by rewrite IH.
Qed.

Lemma spaces_length n : String.length (spaces n) = n.
Proof. induction n as [|n IH]; simpl; congruence. Qed.

Lemma drop_last_append s c : drop_last (s +:+ str1 c) = s.
Proof.
  induction s as [|a s IH]; [reflexivity|].
  change (drop_last (String a (s +:+ str1 c)) = String a s).
  destruct (s +:+ str1 c) as [|b s'] eqn:Hs.
  - by destruct s.
  - change (String a (drop_last (String b s')) = String a s).
    by rewrite IH.
Qed.

Lemma drop_last_list l :
  drop_last (string_of_list_ascii l)
    = string_of_list_ascii (take (length l - 1) l).
Proof.
  induction l as [|a l IH]; [reflexivity|].
  destruct l as [|b l]; [reflexivity|].
  change (String a (drop_last (string_of_list_ascii (b :: l)))
          = string_of_list_ascii (take (length (a :: b :: l) - 1) (a :: b :: l))).
  rewrite IH. simpl. by rewrite Nat.sub_0_r.
Qed.

Lemma iter_drop_last k l :
  Nat.iter k drop_last (string_of_list_ascii l)
    = string_of_list_ascii (take (length l - k) l).
Proof.
  induction k as [|k IH]; simpl.
  - by rewrite Nat.sub_0_r, take_ge.
  - rewrite IH, drop_last_list, take_take, length_take. f_equal. f_equal. lia.
Qed.

Lemma key_effect_backspace prompt c line :
  is_backspace c = true ->
  (key_effect prompt c line).1 = Continue (drop_last line).
Proof.
  unfold is_backspace, key_effect, is_terminator. intros Hc.
  rewrite Hc. apply bool_decide_eq_true in Hc.
  rewrite bool_decide_eq_false_2 by (by destruct Hc as [->| ->]; intros [|]).
  by destruct line.
Qed.

Lemma key_effect_not_terminator prompt c line :
  is_terminator c = false ->
  exists line', (key_effect prompt c line).1 = Continue line'.
Proof.
  intros Hc. destruct (key_effect_continue prompt c line Hc) as (l & o & ->).
  eauto.
Qed.

Lemma run_events_key p prompt c evs line :
  fst <$> run_events p prompt (Key c :: evs) line =
    match (key_effect prompt c line).1 with
    | Break => Some line
    | Continue line' => fst <$> run_events p prompt evs line'
    end.
Proof.
  simpl. destruct (key_effect prompt c line) as [[|line'] out]; [done|].
  simpl. by destruct (run_events p prompt evs line') as [[res out']|].
Qed.

Lemma run_events_printable_prefix p prompt evs cs :
  Forall (fun c => printable c = true) cs ->
  forall line,
    fst <$> run_events p prompt ((Key <$> cs) ++ evs) line =
    fst <$> run_events p prompt evs (line +:+ string_of_list_ascii cs).
Proof.
  induction 1 as [|c cs Hc _ IH]; intros line.
  - by rewrite append_empty.
  - change (fst <$> run_events p prompt (Key c :: ((Key <$> cs) ++ evs)) line
            = fst <$> run_events p prompt evs
                        (line +:+ String c (string_of_list_ascii cs))).
    rewrite run_events_key, (key_effect_printable _ _ _ Hc). simpl.
    by rewrite IH, append_str1.
Qed.

Lemma run_events_backspace_prefix p prompt evs bs :
  Forall (fun c => is_backspace c = true) bs ->
  forall line,
    fst <$> run_events p prompt ((Key <$> bs) ++ evs) line =
    fst <$> run_events p prompt evs (Nat.iter (length bs) drop_last line).
Proof.
  induction 1 as [|b bs Hb _ IH]; intros line; [done|].
  change (fst <$> run_events p prompt (Key b :: ((Key <$> bs) ++ evs)) line
          = fst <$> run_events p prompt evs
                      (Nat.iter (S (length bs)) drop_last line)).
  rewrite run_events_key, (key_effect_backspace _ _ _ Hb), IH.
  by rewrite Nat.iter_succ_r.
Qed.

Lemma run_events_fst p prompt evs line res :
  fst <$> run_events p prompt evs line = Some res ->
  exists out, run_events p prompt evs line = Some (res, out).
Proof.
  destruct (run_events p prompt evs line) as [[res' out]|]; [|done].
  intros [= <-]. eauto.
Qed.

(** A printable key and the backspace after it leave the line as if
    neither had been typed. *)
Lemma run_events_typed_erased p prompt c b pre post :
  printable c = true -> is_backspace b = true ->
  forall line,
    fst <$> run_events p prompt (pre ++ Key c :: Key b :: post) line =
    fst <$> run_events p prompt (pre ++ post) line.
Proof.
  intros Hc Hb.
  induction pre as [|ev pre IH]; intros line.
  - simpl app. rewrite run_events_key, (key_effect_printable _ _ _ Hc).
    cbn [fst].
    rewrite run_events_key, (key_effect_backspace _ _ _ Hb).
    by rewrite drop_last_append.
  - destruct ev as [c0| |e].
    + change (fst <$> run_events p prompt
                (Key c0 :: (pre ++ Key c :: Key b :: post)) line
              = fst <$> run_events p prompt (Key c0 :: (pre ++ post)) line).
      rewrite !run_events_key.
      destruct (key_effect prompt c0 line).1; [done|apply IH].
    + apply IH.
    + change (fst <$> (if quiet p (Raises e)
                       then run_events p prompt
                              (pre ++ Key c :: Key b :: post) line
                       else None)
              = fst <$> (if quiet p (Raises e)
                         then run_events p prompt (pre ++ post) line
                         else None)).
      destruct (quiet p (Raises e)); [apply IH|done].
Qed.

Lemma run_events_leading_backspaces p prompt evs bs :
  Forall (fun c => is_backspace c = true) bs ->
  run_events p prompt ((Key <$> bs) ++ evs) EmptyString
    = run_events p prompt evs EmptyString.
Proof.
  induction 1 as [|b bs Hb _ IH]; [done|].
  change (run_events p prompt (Key b :: ((Key <$> bs) ++ evs)) EmptyString
          = run_events p prompt evs EmptyString).
  simpl. unfold key_effect.
  unfold is_backspace in Hb. rewrite Hb.
  apply bool_decide_eq_true in Hb.
  replace (is_terminator b) with false
    by (by destruct Hb as [->| ->]).
  rewrite IH.
  by destruct (run_events p prompt evs EmptyString) as [[res out]|].
Qed.

Lemma unterminated_split p evs :
  unterminated p evs = true ->
  Forall (fun e => quiet p e = true) evs \/
  exists pre c evs',
    evs = pre ++ Key c :: evs' /\
    Forall (fun e => quiet p e = true) pre /\
    is_terminator c = false /\
    unterminated p evs' = true.
Proof.
  induction evs as [|ev evs IH]; intros Hun; [by left|].
  destruct ev as [c| |e].
  - right. simpl in Hun. apply andb_true_iff in Hun as [Hc Hun].
    exists [], c, evs. repeat split; [done|by apply negb_true_iff|done].
  - simpl in Hun. destruct (IH Hun) as [Hq|(pre & c & evs' & -> & Hq & Hc & Hun')].
    + left. by constructor.
    + right. exists (Nothing :: pre), c, evs'.
      split; [done|]. split; [by constructor|done].
  - cbn [unterminated] in Hun. apply andb_true_iff in Hun as [He Hun].
    destruct (IH Hun) as [Hq|(pre & c & evs' & -> & Hq & Hc & Hun')].
    + left. by constructor.
    + right. exists (Raises e :: pre), c, evs'.
      split; [done|]. split; [by constructor|done].
Qed.



Section MoreLineInput.
Context {K : termios_consts}.

(** [getch_run] with the fuel that matters: none on Windows. *)
Lemma getch_delivers p fuel stdin w pre ev rest :
  pending p stdin w = pre ++ ev :: rest ->
  Forall (fun e => quiet p e = true) pre ->
  quiet p ev = false ->
  (p = PosixLike -> (length pre < fuel)%nat) ->
  getch p fuel stdin w =
    Some (delivered ev,
          set_pending p stdin rest (noncanonical_mode p stdin w).2).
Proof.
  intros Hpend Hq Hev Hfuel. destruct p.
  - change (getch Windows fuel stdin w)
      with (getch Windows (S (length pre)) stdin w).
    apply (getch_run Windows (S (length pre)) stdin w pre ev rest); auto.
  - apply (getch_run PosixLike fuel stdin w pre ev rest); auto.
Qed.

(** One turn of the loop of [line_input], for the key [c] that comes
    after quiet events. *)
Lemma line_input_loop_key p prompt stdin stdout fuel line w pre c evs' :
  pending p stdin w = pre ++ Key c :: evs' ->
  Forall (fun e => quiet p e = true) pre ->
  (p = PosixLike -> (length pre <= fuel)%nat) ->
  is_Some (files w !! stdout) ->
  exists w2,
    line_input_loop p (S fuel) prompt stdin stdout line w =
      match (key_effect prompt c line).1 with
      | Break => Some (Ret line, w2)
      | Continue line' => line_input_loop p fuel prompt stdin stdout line' w2
      end /\
    pending p stdin w2 = evs' /\
    is_Some (files w2 !! stdout) /\
    written stdout w2
      = (fun o => o ++ (key_effect prompt c line).2) <$> written stdout w.
Proof.
  intros Hpend Hq Hfuel Hout.
  set (w1 := set_pending p stdin evs' (noncanonical_mode p stdin w).2).
  assert (Hw1 : written stdout w1 = written stdout w).
  { unfold w1. by rewrite written_set_pending, written_after_mode. }
  assert (Hout1 : is_Some (files w1 !! stdout)).
  { apply written_is_Some. rewrite Hw1. by apply written_is_Some. }
  assert (Hpend1 : pending p stdin w1 = evs').
  { unfold w1. destruct pre; by eapply pending_after_getch. }
  exists (add_output stdout (key_effect prompt c line).2 w1).
  split; [|split; [|split]].
  - rewrite line_input_loop_step. unfold dbind at 1.
    rewrite (getch_delivers p (S fuel) stdin w pre (Key c) evs' Hpend Hq)
      by first [by destruct p | intros Hp; specialize (Hfuel Hp); lia].
    simpl delivered. fold w1. unfold dbind, lift.
    rewrite (line_input_body_run prompt stdout c line w1 Hout1).
    by destruct (key_effect prompt c line) as [[|line'] out].
  - by rewrite pending_add_output.
  - by apply add_output_file.
  - by rewrite written_add_output, Hw1.
Qed.

(** The turn of the loop in which the read raises. *)
Lemma line_input_loop_loud p prompt stdin stdout fuel line w pre e rest :
  pending p stdin w = pre ++ Raises e :: rest ->
  Forall (fun ev => quiet p ev = true) pre ->
  quiet p (Raises e) = false ->
  (p = PosixLike -> (length pre <= fuel)%nat) ->
  line_input_loop p (S fuel) prompt stdin stdout line w =
    Some (Raise e, set_pending p stdin rest (noncanonical_mode p stdin w).2).
Proof.
  intros Hpend Hq He Hfuel.
  rewrite line_input_loop_step. unfold dbind at 1.
  by rewrite (getch_delivers p (S fuel) stdin w pre (Raises e) rest Hpend Hq)
    by first [done | intros Hp; specialize (Hfuel Hp); lia].
Qed.

Lemma line_input_loop_starved p prompt stdin stdout fuel line w :
  getch p (S fuel) stdin w = None ->
  line_input_loop p (S fuel) prompt stdin stdout line w = None.
Proof.
  intros Hg. rewrite line_input_loop_step. unfold dbind at 1. by rewrite Hg.
Qed.

Lemma line_input_loop_unterminated p prompt stdin stdout fuel :
  forall evs line w,
    pending p stdin w = evs ->
    unterminated p evs = true ->
    is_Some (files w !! stdout) ->
    line_input_loop p fuel prompt stdin stdout line w = None.
Proof.
  induction fuel as [|fuel IH]; intros evs line w Hpend Hun Hout;
    [reflexivity|].
  destruct (unterminated_split p evs Hun)
    as [Hq|(pre & c & evs' & -> & Hq & Hc & Hun')].
  - apply line_input_loop_starved, getch_quiet_none. by rewrite Hpend.
  - assert (Hcase : (p = PosixLike -> (length pre <= fuel)%nat) \/
                    (p = PosixLike /\ (S fuel <= length pre)%nat)).
    { destruct p; [by left|].
      destruct (le_lt_dec (length pre) fuel); [by left|right].
      split; [done|lia]. }
    destruct Hcase as [Hfuel|[-> Hfuel]].
    + destruct (line_input_loop_key p prompt stdin stdout fuel line w
                  pre c evs' Hpend Hq Hfuel Hout)
        as (w2 & -> & Hpend2 & Hout2 & _).
      destruct (key_effect_not_terminator prompt c line Hc) as [line' ->].
      by apply (IH evs').
    + apply line_input_loop_starved.
      by apply (getch_out_of_fuel (S fuel) stdin w pre (Key c :: evs')).
Qed.

Lemma line_input_loop_interrupt p prompt stdin stdout e rest fuel :
  forall body line w,
    pending p stdin w = body ++ Raises e :: rest ->
    unterminated p body = true ->
    quiet p (Raises e) = false ->
    (length body < fuel)%nat ->
    is_Some (files w !! stdout) ->
    exists w',
      line_input_loop p fuel prompt stdin stdout line w = Some (Raise e, w') /\
      pending p stdin w' = rest.
Proof.
  induction fuel as [|fuel IH]; intros body line w Hpend Hun He Hfuel Hout;
    [lia|].
  destruct (unterminated_split p body Hun)
    as [Hq|(pre & c & body' & -> & Hq & Hc & Hun')].
  - eexists. split.
    + apply (line_input_loop_loud p prompt stdin stdout fuel line w body e rest);
        try done.
      intros _. lia.
    + destruct body; by eapply pending_after_getch.
  - rewrite <- app_assoc in Hpend. simpl in Hpend.
    rewrite length_app in Hfuel. simpl in Hfuel.
    destruct (line_input_loop_key p prompt stdin stdout fuel line w
                pre c (body' ++ Raises e :: rest) Hpend Hq)
      as (w2 & -> & Hpend2 & Hout2 & _); [intros _; lia|done|].
    destruct (key_effect_not_terminator prompt c line Hc) as [line' ->].
    apply (IH body'); try done. lia.
Qed.

Lemma line_input_loop_printable p prompt stdin stdout t rest cs :
  is_terminator t = true ->
  Forall (fun c => printable c = true) cs ->
  forall fuel line w,
    pending p stdin w = (Key <$> cs) ++ Key t :: rest ->
    (length cs < fuel)%nat ->
    is_Some (files w !! stdout) ->
    exists w',
      line_input_loop p fuel prompt stdin stdout line w
        = Some (Ret (line +:+ string_of_list_ascii cs), w') /\
      pending p stdin w' = rest /\
      is_Some (files w' !! stdout).
Proof.
  intros Ht. induction 1 as [|c cs Hc _ IH]; intros fuel line w Hpend Hfuel Hout.
  - destruct fuel as [|fuel]; [simpl in Hfuel; lia|].
    destruct (line_input_loop_key p prompt stdin stdout fuel line w
                [] t rest Hpend)
      as (w2 & -> & Hpend2 & Hout2 & _); [done|intros _; simpl; lia|done|].
    rewrite (key_effect_terminator _ _ _ Ht). simpl.
    rewrite append_empty. eauto.
  - destruct fuel as [|fuel]; [simpl in Hfuel; lia|].
    destruct (line_input_loop_key p prompt stdin stdout fuel line w
                [] c (fmap (M := list) Key cs ++ Key t :: rest) Hpend)
      as (w2 & -> & Hpend2 & Hout2 & _); [done|intros _; simpl; lia|done|].
    rewrite (key_effect_printable _ _ _ Hc). simpl.
    destruct (IH fuel (line +:+ str1 c) w2 Hpend2) as (w' & -> & Hw');
      [simpl in Hfuel; lia|done|].
    exists w'. by rewrite append_str1.
Qed.

Lemma write_prompt_run p prompt stdin stdout fuel w :
  is_Some (files w !! stdout) ->
  line_input p fuel prompt stdin stdout w =
    line_input_loop p fuel prompt stdin stdout EmptyString
      (add_output stdout [Write prompt] w).
Proof.
  intros Hout. unfold line_input, dbind, lift, write.
  by rewrite (emit_run _ _ _ Hout).
Qed.

End MoreLineInput.

Section LineInputExtras.
Context {K : termios_consts}.

(** X11. On an input in which no terminator comes (only quiet events
    and keys that do not end a line, up to the end of the input),
    [line_input] does not return, whatever the fuel: the line typed so
    far is not given back at the end of the input. *)
Theorem line_input_waits_for_terminator p fuel prompt stdin stdout w :
  unterminated p (pending p stdin w) = true ->
  is_Some (files w !! stdout) ->
  line_input p fuel prompt stdin stdout w = None.
Proof.
  intros Hun Hout. rewrite write_prompt_run by done.
  apply (line_input_loop_unterminated p prompt stdin stdout fuel
           (pending p stdin w)).
  - by rewrite pending_add_output.
  - done.
  - by apply add_output_file.
Qed.

(** X12. An exception that [getch] raises ends [line_input] with that
    exception, whatever was typed before it on the line:
    [KeyboardInterrupt] on both variants, and on Windows any exception
    of the read. Nothing after the exception is read. *)
Theorem line_input_propagates_interrupt p fuel prompt stdin stdout w
    body e rest :
  pending p stdin w = body ++ Raises e :: rest ->
  unterminated p body = true ->
  quiet p (Raises e) = false ->
  (length body < fuel)%nat ->
  is_Some (files w !! stdout) ->
  exists w',
    line_input p fuel prompt stdin stdout w = Some (Raise e, w') /\
    pending p stdin w' = rest.
Proof.
  intros Hpend Hun He Hfuel Hout. rewrite write_prompt_run by done.
  apply (line_input_loop_interrupt p prompt stdin stdout e rest fuel body);
    try done.
  - by rewrite pending_add_output.
  - by apply add_output_file.
Qed.

(** X13. [line_input] consumes the keys of the line and its terminator
    and nothing more, so two calls in a row return two lines typed in a
    row. In particular, when a line is ended by a carriage return and a
    newline, the call after it returns the empty line. *)
Theorem line_input_twice_reads_two_lines p fuel prompt stdin stdout w
    cs1 t1 cs2 t2 rest :
  Forall (fun c => printable c = true) cs1 ->
  Forall (fun c => printable c = true) cs2 ->
  is_terminator t1 = true ->
  is_terminator t2 = true ->
  pending p stdin w
    = (Key <$> cs1) ++ Key t1 :: (Key <$> cs2) ++ Key t2 :: rest ->
  is_Some (files w !! stdout) ->
  (length cs1 < fuel)%nat ->
  (length cs2 < fuel)%nat ->
  exists w1 w2,
    line_input p fuel prompt stdin stdout w
      = Some (Ret (string_of_list_ascii cs1), w1) /\
    line_input p fuel prompt stdin stdout w1
      = Some (Ret (string_of_list_ascii cs2), w2) /\
    pending p stdin w2 = rest.
Proof.
  intros Hcs1 Hcs2 Ht1 Ht2 Hpend Hout Hf1 Hf2.
  destruct (line_input_loop_printable p prompt stdin stdout t1
              ((Key <$> cs2) ++ Key t2 :: rest) cs1 Ht1 Hcs1 fuel EmptyString
              (add_output stdout [Write prompt] w))
    as (w1 & Hrun1 & Hpend1 & Hout1).
  { by rewrite pending_add_output. }
  { done. }
  { by apply add_output_file. }
  destruct (line_input_loop_printable p prompt stdin stdout t2 rest cs2
              Ht2 Hcs2 fuel EmptyString
              (add_output stdout [Write prompt] w1))
    as (w2 & Hrun2 & Hpend2 & _).
  { by rewrite pending_add_output. }
  { done. }
  { by apply add_output_file. }
  exists w1, w2.
  rewrite !write_prompt_run by done. auto.
Qed.

(** X14. Printable characters [cs], then backspaces (0x7f or 0x08, in
    any number), then a terminator: [line_input] returns [cs] without
    as many of its last characters as there were backspaces, and the
    empty line when there were more backspaces than characters. *)
Theorem line_input_backspaces_erase_from_the_end p fuel prompt stdin stdout w
    cs bs t rest :
  Forall (fun c => printable c = true) cs ->
  Forall (fun c => is_backspace c = true) bs ->
  is_terminator t = true ->
  pending p stdin w = (Key <$> cs) ++ (Key <$> bs) ++ Key t :: rest ->
  is_Some (files w !! stdout) ->
  (length cs + length bs + 1 < fuel)%nat ->
  exists w',
    line_input p fuel prompt stdin stdout w
      = Some (Ret (string_of_list_ascii (take (length cs - length bs) cs)), w').
Proof.
  intros Hcs Hbs Ht Hpend Hout Hfuel.
  assert (Hfst : fst <$> run_events p prompt
                   ((Key <$> cs) ++ (Key <$> bs) ++ [Key t]) EmptyString
                 = Some (string_of_list_ascii (take (length cs - length bs) cs))).
  { rewrite (run_events_printable_prefix p prompt _ cs Hcs).
    rewrite (run_events_backspace_prefix p prompt _ bs Hbs).
    rewrite run_events_key, (key_effect_terminator _ _ _ Ht). simpl.
    f_equal. apply iter_drop_last. }
  apply run_events_fst in Hfst as [out Hrun].
  destruct (line_input_run p prompt stdin stdout fuel
              ((Key <$> cs) ++ (Key <$> bs) ++ [Key t]) rest w
              (string_of_list_ascii (take (length cs - length bs) cs)) out)
    as (w' & Hline & _); try done.
  - by rewrite <- !app_assoc.
  - rewrite !length_app, !length_fmap. simpl. lia.
  - eauto.
Qed.

(** X15. A printable character and a backspace right after it, at any
    place of a terminated input, leave the line [line_input] returns as
    it is without the two keys. *)
Theorem line_input_typed_then_erased p fuel prompt stdin stdout w1 w2
    pre c b post rest1 rest2 :
  printable c = true ->
  is_backspace b = true ->
  terminated p (pre ++ post) = true ->
  pending p stdin w1 = (pre ++ Key c :: Key b :: post) ++ rest1 ->
  pending p stdin w2 = (pre ++ post) ++ rest2 ->
  is_Some (files w1 !! stdout) ->
  is_Some (files w2 !! stdout) ->
  (length pre + length post + 2 < fuel)%nat ->
  exists line w1' w2',
    line_input p fuel prompt stdin stdout w1 = Some (Ret line, w1') /\
    line_input p fuel prompt stdin stdout w2 = Some (Ret line, w2').
Proof.
  intros Hc Hb Hterm Hp1 Hp2 Hout1 Hout2 Hfuel.
  destruct (terminated_run_events p prompt _ Hterm EmptyString)
    as [[line out2] Hrun2].
  assert (Hfst : fst <$> run_events p prompt
                   (pre ++ Key c :: Key b :: post) EmptyString = Some line).
  { rewrite (run_events_typed_erased p prompt c b pre post Hc Hb).
    by rewrite Hrun2. }
  apply run_events_fst in Hfst as [out1 Hrun1].
  destruct (line_input_run p prompt stdin stdout fuel _ rest1 w1 line out1
              Hp1 Hrun1 Hout1) as (w1' & Hline1 & _).
  { rewrite length_app. simpl. lia. }
  destruct (line_input_run p prompt stdin stdout fuel _ rest2 w2 line out2
              Hp2 Hrun2 Hout2) as (w2' & Hline2 & _).
  { rewrite length_app. lia. }
  eauto.
Qed.

(** X16. Backspaces typed on the empty line, before anything else, are
    absorbed: [line_input] returns the same line and has written the
    same as without them. *)
Theorem line_input_leading_backspaces p fuel prompt stdin stdout w1 w2
    bs evs rest1 rest2 :
  Forall (fun c => is_backspace c = true) bs ->
  terminated p evs = true ->
  pending p stdin w1 = ((Key <$> bs) ++ evs) ++ rest1 ->
  pending p stdin w2 = evs ++ rest2 ->
  is_Some (files w1 !! stdout) ->
  written stdout w2 = written stdout w1 ->
  (length bs + length evs < fuel)%nat ->
  exists line w1' w2',
    line_input p fuel prompt stdin stdout w1 = Some (Ret line, w1') /\
    line_input p fuel prompt stdin stdout w2 = Some (Ret line, w2') /\
    written stdout w2' = written stdout w1'.
Proof.
  intros Hbs Hterm Hp1 Hp2 Hout Hw Hfuel.
  destruct (terminated_run_events p prompt evs Hterm EmptyString)
    as [[line out] Hrun].
  destruct (line_input_run p prompt stdin stdout fuel _ rest1 w1 line out Hp1)
    as (w1' & Hline1 & Hw1); try done.
  { by rewrite run_events_leading_backspaces. }
  { rewrite length_app, length_fmap. lia. }
  destruct (line_input_run p prompt stdin stdout fuel evs rest2 w2 line out Hp2)
    as (w2' & Hline2 & Hw2); try done.
  { apply written_is_Some. rewrite Hw. by apply written_is_Some. }
  { lia. }
  exists line, w1', w2'. split; [done|]. split; [done|].
  by rewrite Hw1, Hw2, Hw.
Qed.

End LineInputExtras.

(** X17. What the body of the loop of [line_input] writes for a
    backspace on a line that is not empty blanks the whole of what was
    shown: one string, made of a carriage return, then four more space
    characters than the prompt and the line were long before the
    backspace, then a carriage return, the prompt and the line without
    its last character. *)
Theorem redraw_blanks_old_line prompt stdout c line w :
  Z.of_N (N_of_ascii c) = 0x7f \/ Z.of_N (N_of_ascii c) = 0x08 ->
  is_Some (files w !! stdout) ->
  line <> EmptyString ->
  exists s,
    line_input_body prompt stdout (str1 c) line w =
      (Ret (Continue (drop_last line)), add_output stdout [Write s] w) /\
    list_ascii_of_string s =
      "013"%char ::
      replicate (String.length (prompt +:+ line) + 4) " "%char ++
      "013"%char ::
      list_ascii_of_string prompt ++ list_ascii_of_string (drop_last line).
Proof.
  intros Hcode Hout Hline. exists (redraw prompt (drop_last line)). split.
  - rewrite (line_input_body_run prompt stdout c line w Hout).
    apply code_backspace in Hcode.
    assert (Hc : key_effect prompt c line =
                 (Continue (drop_last line),
                  [Write (redraw prompt (drop_last line))])).
    { unfold key_effect.
      replace (is_terminator c) with false
        by (by destruct Hcode as [->| ->]).
      rewrite bool_decide_eq_true_2 by done. by destruct line. }
    by rewrite Hc.
  - rewrite list_ascii_of_redraw.
    replace (String.length (prompt +:+ drop_last line) + 5)%nat
      with (String.length (prompt +:+ line) + 4)%nat; [done|].
    rewrite !append_length, drop_last_length.
    destruct line; [done|simpl; lia].
Qed.

Lemma redraw_blanks_old_line_witness :
  exists s,
    line_input_body "> " 1 (str1 BS) "ab" (at_terminal []) =
      (Ret (Continue "a"), add_output 1 [Write s] (at_terminal [])) /\
    list_ascii_of_string s =
      ["013"; " "; " "; " "; " "; " "; " "; " "; " "; "013"; ">"; " "; "a"]%char.
Proof.
  apply (redraw_blanks_old_line "> " 1 BS "ab" (at_terminal [])).
  - right. reflexivity.
  - eexists. reflexivity.
  - discriminate.
Defined.

(** ** The terminal after reading *)

Section TerminalAfterReading.
Context {K : termios_consts}.



End TerminalAfterReading.

(** X19. The Windows variant is the one loaded exactly when the name
    of the platform starts with ["win"]. *)
Theorem platform_of_windows_iff s :
  platform_of s = Windows <-> exists rest, s = "win" +:+ rest.
Proof.
  unfold platform_of. split.
  - case_decide as Hs; [|done]. intros _.
    destruct s as [|a [|b [|c s]]]; try done.
    exists s. simpl in Hs. destruct s; by injection Hs as -> -> ->.
  - intros [rest ->]. rewrite decide_True; [done|].
    by destruct rest.
Qed.

Lemma noncanonical_mode_twice_witness :
  kernel (noncanonical_mode (K := linux_consts) PosixLike 0
            (noncanonical_mode (K := linux_consts) PosixLike 0
               (at_terminal [])).2).2
  = kernel (noncanonical_mode (K := linux_consts) PosixLike 0
              (at_terminal [])).2.
Proof.
  apply (@noncanonical_mode_twice linux_consts 0 (at_terminal []) 0 cooked).
  - reflexivity.
  - vm_compute. lia.
  - vm_compute. lia.
Defined.

Lemma line_input_waits_for_terminator_witness :
  line_input (K := linux_consts) PosixLike 10 "> " 0 1
    (redirected [Key "a"%char; Nothing; Key "b"%char]) = None.
Proof.
  apply (@line_input_waits_for_terminator linux_consts PosixLike 10 "> " 0 1
           (redirected [Key "a"%char; Nothing; Key "b"%char])).
  - reflexivity.
  - eexists. reflexivity.
Defined.

Lemma line_input_propagates_interrupt_witness :
  exists w',
    line_input (K := linux_consts) PosixLike 3 "> " 0 1
      (at_terminal [Key "a"%char; Raises KeyboardInterrupt; Key "b"%char])
      = Some (Raise KeyboardInterrupt, w') /\
    pending PosixLike 0 w' = [Key "b"%char].
Proof.
  apply (@line_input_propagates_interrupt linux_consts PosixLike 3 "> " 0 1
           (at_terminal [Key "a"%char; Raises KeyboardInterrupt; Key "b"%char])
           [Key "a"%char] KeyboardInterrupt [Key "b"%char]).
  - reflexivity.
  - reflexivity.
  - reflexivity.
  - simpl. lia.
  - eexists. reflexivity.
Defined.

Lemma line_input_twice_reads_two_lines_witness :
  exists w1 w2,
    line_input (K := linux_consts) PosixLike 3 "> " 0 1
      (at_terminal [Key "a"%char; Key CR; Key LF; Key "b"%char])
      = Some (Ret "a", w1) /\
    line_input (K := linux_consts) PosixLike 3 "> " 0 1 w1
      = Some (Ret "", w2) /\
    pending PosixLike 0 w2 = [Key "b"%char].
Proof.
  apply (@line_input_twice_reads_two_lines linux_consts PosixLike 3 "> " 0 1
           (at_terminal [Key "a"%char; Key CR; Key LF; Key "b"%char])
           ["a"%char] CR [] LF [Key "b"%char]).
  - repeat constructor.
  - constructor.
  - reflexivity.
  - reflexivity.
  - reflexivity.
  - eexists. reflexivity.
  - simpl. lia.
  - simpl. lia.
Defined.

Lemma line_input_backspaces_erase_from_the_end_witness :
  exists w',
    line_input (K := linux_consts) PosixLike 8 "> " 0 1
      (at_terminal [Key "a"%char; Key "b"%char; Key "c"%char;
                    Key DEL; Key BS; Key LF])
      = Some (Ret "a", w').
Proof.
  apply (@line_input_backspaces_erase_from_the_end linux_consts PosixLike 8
           "> " 0 1
           (at_terminal [Key "a"%char; Key "b"%char; Key "c"%char;
                         Key DEL; Key BS; Key LF])
           ["a"%char; "b"%char; "c"%char] [DEL; BS] LF []).
  - repeat constructor.
  - repeat constructor.
  - reflexivity.
  - reflexivity.
  - eexists. reflexivity.
  - simpl. lia.
Defined.

Lemma line_input_typed_then_erased_witness :
  exists line w1' w2',
    line_input (K := linux_consts) PosixLike 8 "> " 0 1
      (at_terminal [Key "a"%char; Key "x"%char; Key DEL; Key "b"%char; Key LF])
      = Some (Ret line, w1') /\
    line_input (K := linux_consts) PosixLike 8 "> " 0 1
      (at_terminal [Key "a"%char; Key "b"%char; Key LF])
      = Some (Ret line, w2').
Proof.
  apply (@line_input_typed_then_erased linux_consts PosixLike 8 "> " 0 1
           (at_terminal [Key "a"%char; Key "x"%char; Key DEL; Key "b"%char;
                         Key LF])
           (at_terminal [Key "a"%char; Key "b"%char; Key LF])
           [Key "a"%char] "x"%char DEL [Key "b"%char; Key LF] [] []).
  - reflexivity.
  - reflexivity.
  - reflexivity.
  - reflexivity.
  - reflexivity.
  - eexists. reflexivity.
  - eexists. reflexivity.
  - simpl. lia.
Defined.

Lemma line_input_leading_backspaces_witness :
  exists line w1' w2',
    line_input (K := linux_consts) PosixLike 8 "> " 0 1
      (at_terminal [Key DEL; Key "a"%char; Key LF])
      = Some (Ret line, w1') /\
    line_input (K := linux_consts) PosixLike 8 "> " 0 1
      (at_terminal [Key "a"%char; Key LF])
      = Some (Ret line, w2') /\
    written 1 w2' = written 1 w1'.
Proof.
  apply (@line_input_leading_backspaces linux_consts PosixLike 8 "> " 0 1
           (at_terminal [Key DEL; Key "a"%char; Key LF])
           (at_terminal [Key "a"%char; Key LF])
           [DEL] [Key "a"%char; Key LF] [] []).
  - repeat constructor.
  - reflexivity.
  - reflexivity.
  - reflexivity.
  - eexists. reflexivity.
  - reflexivity.
  - simpl. lia.
Defined.

